(** * ApplyMeshOperatorToSelection

    A shallow embedding of [scripts/edit_mode/ApplyMeshOperatorToSelection.py]
    and the properties of its construction and of [run()].

    The script drives a host application (Blender, through [bpy] and
    [bmesh]).  The host is not part of the repository; the part of it the
    script touches is modelled below as an explicit state: the active
    object with its mode and its edit mesh, the console, and the list of
    host calls made so far.  Select flags are kept per element and per
    kind: a host call changes the flags it is documented to change and no
    others, except a mode switch, whose effect on the mesh is a parameter
    of the host.  The class itself is embedded method by method in a
    state-and-exception monad over the pair (self, host). *)

From Stdlib Require Import Ascii String ZArith Sorted.
From stdpp Require Import base list strings gmap pretty.

Open Scope string_scope.

(** ** Python values and exceptions *)

(** Values that occur in a parameter dictionary.  The script never looks
    inside them: it hands the dictionary to the operator. *)
#[warnings="-register-all"]
Inductive PyVal :=
| PyInt (z : Z)
| PyStr (s : string)
| PyTuple (items : list PyVal)
| PyDict (items : list (string * PyVal)).

(** The exceptions that can leave the script.  The first four are raised
    by the script itself (lines 67, 79, 84/86, 97), the others by Python
    or by the host. *)
Inductive PyExn :=
| EnvironmentError (msg : string)
| NameError (args : list string)
| TypeError (msg : string)
| UserWarning (msg : string)
| AttributeError (msg : string)
| IndexError (msg : string)
| ReferenceError (msg : string)
| RuntimeError (msg : string).

(** ** The host: edit mesh, active object, console, call log *)

(** Modelled from the spec: one element of a per-kind collection of the
    host's edit mesh, with its [index] attribute and its [select]
    flag. *)
Record BMElem := { index : Z; select : bool }.

Definition set_select (b : bool) (e : BMElem) : BMElem :=
  {| index := index e; select := b |}.

(** Modelled from the spec: the host's edit mesh, with its three
    per-kind collections (vertices, edges, faces), each in the host's
    iteration order. *)
Record BMesh := {
  verts : list BMElem;
  edges : list BMElem;
  faces : list BMElem
}.

(** [getattr(bm, name)] for the three sequences; [None] stands for any
    other attribute name. *)
Definition getattr_bm (bm : BMesh) (name : string) : option (list BMElem) :=
  if String.eqb name "verts" then Some (verts bm)
  else if String.eqb name "edges" then Some (edges bm)
  else if String.eqb name "faces" then Some (faces bm)
  else None.

(** The mesh with the sequence called [name] replaced. *)
Definition with_seq (bm : BMesh) (name : string) (l : list BMElem) : BMesh :=
  if String.eqb name "verts" then {| verts := l; edges := edges bm; faces := faces bm |}
  else if String.eqb name "edges" then {| verts := verts bm; edges := l; faces := faces bm |}
  else if String.eqb name "faces" then {| verts := verts bm; edges := edges bm; faces := l |}
  else bm.

(** Modelled from the spec: a host operator reference such as
    [bpy.ops.mesh.inset]: whether Python finds it callable, what
    [idname_py()] returns ([None]: the object has no such method), how it
    prints, and what a call with a parameter mapping does to the edit
    mesh: the mesh it leaves (topology and select flags), and the
    exception it raises if any. *)
Record Action := {
  callable : bool;
  idname_py : option string;
  repr : string;
  invoke : gmap string PyVal -> BMesh -> option PyExn * BMesh
}.

(** The calls the script makes into the host, as they are logged.  A
    logged operator invocation carries the parameters, the edit mesh as
    it was at the moment of the call, and the exception raised. *)
Inductive HostCall :=
| ModeSet (mode : string)
| FromEditMesh
| SelectAll (action : string)
| UpdateEditMesh
| EnsureLookupTable (kind : string)
| SetSelect (kind : string) (idx : Z)
| CallAction (params : gmap string PyVal) (seen : BMesh) (raised : option PyExn).

(** Modelled from the spec: an object of the host, with its mode, its
    mesh data and the Python type name of its data ("Mesh" for a mesh
    object, "Curve", "Armature", ... otherwise; [data] is only looked at
    for a mesh object). *)
Record Object := { mode : string; data : BMesh; data_type : string }.

(** [active_object] is [bpy.context.active_object], which is [None] when
    the scene has no active object.  [console] collects what [print]
    writes, one entry per call.  [mode_switch m bm] is what this host
    makes of the mesh data [bm] when the object is switched to mode [m]:
    the spec does not say what a mode switch does to the mesh (the host
    writes the edit mesh back on leaving edit mode and rebuilds it, select
    flags included, on entering it), so it is left to the host. *)
Record Host := {
  active_object : option Object;
  console : list string;
  calls : list HostCall;
  mode_switch : string -> BMesh -> BMesh
}.

Definition log (c : HostCall) (h : Host) : Host :=
  {| active_object := active_object h; console := console h;
     calls := calls h ++ [c]; mode_switch := mode_switch h |}.

Definition print (line : string) (h : Host) : Host :=
  {| active_object := active_object h; console := console h ++ [line];
     calls := calls h; mode_switch := mode_switch h |}.

Definition with_object (o : Object) (h : Host) : Host :=
  {| active_object := Some o; console := console h; calls := calls h;
     mode_switch := mode_switch h |}.

Definition with_data (bm : BMesh) (o : Object) : Object :=
  {| mode := mode o; data := bm; data_type := data_type o |}.

(** The object after the host [h] has switched it to mode [m]. *)
Definition switched (h : Host) (m : string) (o : Object) : Object :=
  {| mode := m; data := mode_switch h m (data o); data_type := data_type o |}.

(** ** The instance *)

(** Handles the instance keeps to host data: the object and its edit
    mesh.  Both name the host's active object; the data stays in the
    host state, where the host's own operators change it too. *)
Inductive ObjRef := ActiveObjectRef.
Inductive BMeshRef := EditMeshRef.

Record Self := {
  selection_ : list Z;
  sel_type_ : string;
  action_ : Action;
  param_dict_ : gmap string PyVal;
  verbose_ : bool;
  obj_ : option ObjRef;
  bm_ : option BMeshRef
}.

(** The attributes assigned by lines 68-72. *)
Definition assigned (sel_type : string) (action : Action)
    (param_dict : gmap string PyVal) (verbose : bool) : Self :=
  {| selection_ := []; sel_type_ := sel_type; action_ := action;
     param_dict_ := param_dict; verbose_ := verbose;
     obj_ := None; bm_ := None |}.

Definition set_selection (l : list Z) (s : Self) : Self :=
  {| selection_ := l; sel_type_ := sel_type_ s; action_ := action_ s;
     param_dict_ := param_dict_ s; verbose_ := verbose_ s;
     obj_ := obj_ s; bm_ := bm_ s |}.

Definition set_handles (s : Self) : Self :=
  {| selection_ := selection_ s; sel_type_ := sel_type_ s; action_ := action_ s;
     param_dict_ := param_dict_ s; verbose_ := verbose_ s;
     obj_ := Some ActiveObjectRef; bm_ := Some EditMeshRef |}.

(** Line 91: [self.obj_ = bpy.context.active_object]. *)
Definition set_obj (s : Self) : Self :=
  {| selection_ := selection_ s; sel_type_ := sel_type_ s; action_ := action_ s;
     param_dict_ := param_dict_ s; verbose_ := verbose_ s;
     obj_ := Some ActiveObjectRef; bm_ := bm_ s |}.

(** Line 92: [self.bm_ = ...]. *)
Definition set_bm (s : Self) : Self :=
  {| selection_ := selection_ s; sel_type_ := sel_type_ s; action_ := action_ s;
     param_dict_ := param_dict_ s; verbose_ := verbose_ s;
     obj_ := obj_ s; bm_ := Some EditMeshRef |}.

Definition set_verbose (b : bool) (s : Self) : Self :=
  {| selection_ := selection_ s; sel_type_ := sel_type_ s; action_ := action_ s;
     param_dict_ := param_dict_ s; verbose_ := b;
     obj_ := obj_ s; bm_ := bm_ s |}.

(** ** State and exceptions *)

Record State := { self : Self; host : Host }.

(** A method either returns a value or raises; both leave a state
    behind, the one reached when the method stopped. *)
Inductive Res (A : Type) :=
| Ok (a : A) (s : State)
| Raise (e : PyExn) (s : State).
Arguments Ok {A} a s.
Arguments Raise {A} e s.

Definition M (A : Type) : Type := State -> Res A.

Definition ret {A} (a : A) : M A := fun s => Ok a s.

Definition bind {A B} (m : M A) (k : A -> M B) : M B :=
  fun s => match m s with
           | Ok a s' => k a s'
           | Raise e s' => Raise e s'
           end.

Definition raise {A} (e : PyExn) : M A := fun s => Raise e s.

Definition get_self : M Self := fun s => Ok (self s) s.

Definition modify_self (f : Self -> Self) : M unit :=
  fun s => Ok tt {| self := f (self s); host := host s |}.

Definition modify_host (f : Host -> Host) : M unit :=
  fun s => Ok tt {| self := self s; host := f (host s) |}.

Declare Scope py_scope.
Delimit Scope py_scope with py.
Notation "x <- m ;; k" := (bind m (fun x => k))
  (at level 100, m at next level, right associativity) : py_scope.
Notation "m ;; k" := (bind m (fun _ => k))
  (at level 100, right associativity) : py_scope.
Open Scope py_scope.

Definition when (b : bool) (m : M unit) : M unit :=
  if b then m else ret tt.

(** [for x in l: body(x)] *)
Fixpoint for_each {A} (l : list A) (body : A -> M unit) : M unit :=
  match l with
  | [] => ret tt
  | x :: rest => body x ;; for_each rest body
  end.

Definition res_state {A} (r : Res A) : State :=
  match r with Ok _ s => s | Raise _ s => s end.

Definition res_exn {A} (r : Res A) : option PyExn :=
  match r with Ok _ _ => None | Raise e _ => Some e end.

(** ** Strings *)

(** [s.split(c)] for a one-character separator. *)
Fixpoint split_on (c : ascii) (s : string) : list string :=
  match s with
  | EmptyString => [EmptyString]
  | String a rest =>
      if Ascii.eqb a c then EmptyString :: split_on c rest
      else match split_on c rest with
           | w :: ws => String a w :: ws
           | [] => [String a EmptyString]
           end
  end.

(** [x in l] for strings. *)
Definition str_in (x : string) (l : list string) : bool :=
  existsb (String.eqb x) l.

(** [str(idx)] and [str(len(...))] *)
Definition str_Z (z : Z) : string := pretty z.
Definition str_nat (n : nat) : string := pretty n.

(** ** Host primitives used by the script *)

(** The object behind [self.obj_] / [self.bm_].  The handle is dead when
    the host has no active object any more. *)
Definition the_object : M Object :=
  fun s => match active_object (host s) with
           | Some o => Ok o s
           | None => Raise (ReferenceError "StructRNA of type Object has been removed") s
           end.

(** Modelled from the spec: the host's mode switch for the active
    object, [bpy.ops.object.mode_set(mode=m)].  The object is in mode
    [m] afterwards; what becomes of its mesh data, select flags included,
    is the host's [mode_switch]. *)
Definition mode_set (m : string) : M unit :=
  o <- the_object ;;
  modify_host (fun h => log (ModeSet m) (with_object (switched h m o) h)).

(** Modelled from the spec: [bmesh.from_edit_mesh(self.obj_.data)], which
    gives the live handle to the edit mesh of a mesh object and raises a
    type error for data that is not a mesh. *)
Definition from_edit_mesh : M unit :=
  o <- the_object ;;
  modify_host (log FromEditMesh) ;;
  if String.eqb (data_type o) "Mesh" then ret tt
  else raise (TypeError ("expected 'Mesh' type found '" ++ data_type o
                                                       ++ "' instead")).

(** Modelled from the spec: the host's push-to-host update call,
    [bmesh.update_edit_mesh(self.obj_.data)].  It commits the flags to
    the host's live mesh; in this model the flags already live there, so
    the call is only logged. *)
Definition update_edit_mesh : M unit :=
  _ <- the_object ;; modify_host (log UpdateEditMesh).

Definition deselect_seq (l : list BMElem) : list BMElem :=
  set_select false <$> l.

Definition deselect_mesh (bm : BMesh) : BMesh :=
  {| verts := deselect_seq (verts bm);
     edges := deselect_seq (edges bm);
     faces := deselect_seq (faces bm) |}.

(** Modelled from the spec: the host's global deselect-all operation,
    [bpy.ops.mesh.select_all(action='DESELECT')].  It clears every
    select flag of the edit mesh, of all three kinds. *)
Definition select_all_deselect : M unit :=
  o <- the_object ;;
  modify_host (fun h => log (SelectAll "DESELECT")
                          (with_object (with_data (deselect_mesh (data o)) o) h)).

(** [getattr(self.bm_, self.sel_type_)] *)
Definition bm_seq : M (list BMElem) :=
  me <- get_self ;;
  o <- the_object ;;
  match getattr_bm (data o) (sel_type_ me) with
  | Some l => ret l
  | None => raise (AttributeError "'BMesh' object has no such attribute")
  end.

(** Modelled from the spec: the host's lookup-table refresh,
    [seq.ensure_lookup_table()], on the collection of the configured
    kind. *)
Definition ensure_lookup_table : M unit :=
  me <- get_self ;;
  _ <- bm_seq ;;
  modify_host (log (EnsureLookupTable (sel_type_ me))).

(** Modelled from the spec: the host's index-based lookup.  The
    position [seq[idx]] names in a collection of [len] elements, as
    Python sequences do it: a negative index counts from the end,
    anything out of range is an [IndexError]. *)
Definition py_index (len : nat) (idx : Z) : option nat :=
  let k := if (idx <? 0)%Z then (idx + Z.of_nat len)%Z else idx in
  if ((0 <=? k)%Z && (k <? Z.of_nat len)%Z)%bool then Some (Z.to_nat k) else None.

(** What the host's lookup raises for an index that is out of range; the
    message carries the index, counted from the end already when it was
    negative. *)
Definition index_error (len : nat) (idx : Z) : PyExn :=
  IndexError ("BMElemSeq[index]: index "
              ++ str_Z (if (idx <? 0)%Z then (idx + Z.of_nat len)%Z else idx)
              ++ " out of range").

(** [seq[idx].select = True] on the collection of the configured kind:
    sets the select flag of that one element.  The flags of the other
    kinds stay as they are in this model; no statement below speaks
    about them after a per-element select. *)
Definition select_elem (idx : Z) : M unit :=
  me <- get_self ;;
  l <- bm_seq ;;
  o <- the_object ;;
  match py_index (length l) idx with
  | Some p =>
      modify_host (fun h =>
        log (SetSelect (sel_type_ me) idx)
            (with_object
               (with_data (with_seq (data o) (sel_type_ me)
                                    (alter (set_select true) p l)) o) h))
  | None => raise (index_error (length l) idx)
  end.

(** [self.action_] called with the entries of [self.param_dict_] as
    keyword arguments (line 117).  The call is logged with the mesh the
    operator found. *)
Definition call_action : M unit :=
  me <- get_self ;;
  if callable (action_ me) then
    o <- the_object ;;
    let out := invoke (action_ me) (param_dict_ me) (data o) in
    modify_host (fun h =>
      log (CallAction (param_dict_ me) (data o) (fst out))
          (with_object (with_data (snd out) o) h)) ;;
    match fst out with
    | Some e => raise e
    | None => ret tt
    end
  else raise (TypeError "object is not callable").

(** ** The class *)

Module ApplyMeshOperatorToSelection.

Definition hint : string :=
  String "010"%char "           Refer to https://docs.blender.org/api/current/bpy.ops.mesh.html".

(** Lines 77-79. *)
Definition __validate_selection_type : M unit :=
  me <- get_self ;;
  if negb (str_in (sel_type_ me) ["verts"; "edges"; "faces"]) then
    raise (NameError [sel_type_ me;
                      " is not valid. Use verts, edges or faces as SELECTION_TYPE"])
  else ret tt.

(** Lines 81-86. *)
Definition __validate_action : M unit :=
  me <- get_self ;;
  if negb (callable (action_ me)) then
    raise (TypeError ("The passed action is not callable." ++ hint))
  else
    match idname_py (action_ me) with
    | None => raise (AttributeError "object has no attribute 'idname_py'")
    | Some name =>
        if negb (String.eqb (hd "" (split_on "."%char name)) "mesh") then
          raise (TypeError ("The passed action object is not a mesh operator" ++ hint))
        else ret tt
    end.

(** Lines 88-92. *)
Definition __read_selection : M unit :=
  mode_set "OBJECT" ;;
  mode_set "EDIT" ;;
  _ <- the_object ;;
  modify_self set_obj ;;
  from_edit_mesh ;;
  modify_self set_bm.

(** Lines 53-75.  The five assignments of lines 68-72 follow the mode
    check of line 66, which reads [bpy.context.active_object.mode]. *)
Definition __init__ (sel_type : string) (action : Action)
    (param_dict : gmap string PyVal) (verbose : bool) : M unit :=
  fun s =>
    match active_object (host s) with
    | None => Raise (AttributeError "'NoneType' object has no attribute 'mode'") s
    | Some o =>
        if negb (String.eqb (mode o) "EDIT") then
          Raise (EnvironmentError "Your must be in edit mode to execute this script!") s
        else
          (modify_self (fun _ => assigned sel_type action param_dict verbose) ;;
           __validate_selection_type ;;
           __validate_action ;;
           __read_selection) s
    end.

(** Lines 94-99. *)
Definition __store_selection : M unit :=
  l <- bm_seq ;;
  modify_self (set_selection (index <$> filter (fun p => select p = true) l)) ;;
  me <- get_self ;;
  if (length (selection_ me) =? 0)%nat then
    raise (UserWarning ("No " ++ sel_type_ me ++ " were selected"))
  else
    when (verbose_ me)
      (modify_host (print ("Selected  " ++ str_nat (length (selection_ me))
                                         ++ " " ++ sel_type_ me))).

(** Lines 101-105. *)
Definition __deselect_all : M unit :=
  me <- get_self ;;
  when (verbose_ me) (modify_host (print "Deselect all faces")) ;;
  select_all_deselect ;;
  update_edit_mesh.

(** Lines 107-110. *)
Definition __select_single_instance (idx : Z) : M unit :=
  ensure_lookup_table ;;
  select_elem idx ;;
  update_edit_mesh.

(** Lines 114-118: the body of the apply loop, for one captured index. *)
Definition __execute_action_on_selection_body (idx : Z) : M unit :=
  __select_single_instance idx ;;
  me <- get_self ;;
  when (verbose_ me)
    (modify_host (print ("Executing  " ++ repr (action_ me) ++ "  on "
                                        ++ sel_type_ me ++ str_Z idx))) ;;
  call_action ;;
  __deselect_all.

(** Lines 112-118. *)
Definition __execute_action_on_selection : M unit :=
  me <- get_self ;;
  for_each (selection_ me) __execute_action_on_selection_body.

(** Lines 120-122. *)
Definition __restore_selection : M unit :=
  me <- get_self ;;
  for_each (selection_ me) __select_single_instance.

(** Lines 124-128. *)
Definition run : M unit :=
  __store_selection ;;
  __deselect_all ;;
  __execute_action_on_selection ;;
  __restore_selection.

End ApplyMeshOperatorToSelection.

Import ApplyMeshOperatorToSelection.

(** Lines 133-134, the body of the script: an instance is created,
    verbose, from the three variables of the config section (lines
    31-33), which the user edits before running, and is run at once. *)
Definition main (SELECTION_TYPE : string) (ACTION : Action)
    (PARAMS : gmap string PyVal) : M unit :=
  __init__ SELECTION_TYPE ACTION PARAMS true ;;
  run.

Close Scope string_scope.

(** * Vocabulary of the properties *)

(** ** What is observed of a run *)

(** The three configuration inputs as the instance holds them. *)
Definition config (s : State) : string * Action * gmap string PyVal :=
  (sel_type_ (self s), action_ (self s), param_dict_ (self s)).

(** The edit mesh of the active object, if there is one. *)
Definition edit_mesh (s : State) : option BMesh :=
  data <$> active_object (host s).

(** The element sequence of the configured kind. *)
Definition kind_seq (s : State) : option (list BMElem) :=
  bm ← edit_mesh s; getattr_bm bm (sel_type_ (self s)).

(** The indices a capture reads off a sequence (line 95). *)
Definition captured (l : list BMElem) : list Z :=
  index <$> filter (fun p => select p = true) l.

(** The positions of the selected elements of a sequence, counted from
    [i]. *)
Fixpoint selected_from (i : nat) (l : list BMElem) : list nat :=
  match l with
  | [] => []
  | p :: rest =>
      if select p then i :: selected_from (S i) rest
      else selected_from (S i) rest
  end.

Definition selected_positions (l : list BMElem) : list nat := selected_from 0 l.

(** The meshes the operator saw, one per invocation, in call order. *)
Fixpoint invocations (cs : list HostCall) : list BMesh :=
  match cs with
  | [] => []
  | CallAction _ seen _ :: rest => seen :: invocations rest
  | _ :: rest => invocations rest
  end.

(** The indices of the per-element select calls, in call order. *)
Fixpoint select_calls (cs : list HostCall) : list Z :=
  match cs with
  | [] => []
  | SetSelect _ idx :: rest => idx :: select_calls rest
  | _ :: rest => select_calls rest
  end.

(** An operator invocation that ended in an exception. *)
Definition raising (c : HostCall) : bool :=
  match c with
  | CallAction _ _ (Some _) => true
  | _ => false
  end.

(** No logged invocation raised. *)
Definition quiet (cs : list HostCall) : Prop :=
  Forall (fun c => raising c = false) cs.

(** The host calls of one [__select_single_instance idx]. *)
Definition select_single_calls (kind : string) (idx : Z) : list HostCall :=
  [EnsureLookupTable kind; SetSelect kind idx; UpdateEditMesh].

(** The host calls of a restore phase over [sel]. *)
Definition restore_calls (kind : string) (sel : list Z) : list HostCall :=
  flat_map (select_single_calls kind) sel.

Definition valid_kind (kind : string) : Prop :=
  str_in kind ["verts"; "edges"; "faces"] = true.

(** Every element's [index] attribute is its position in the sequence. *)
Definition indices_valid (l : list BMElem) : Prop :=
  forall (i : nat) (p : BMElem), l !! i = Some p -> index p = Z.of_nat i.

(** ** Invariants of methods *)

(** Every step of the method [m] keeps the relation [P] between the
    state it starts from and the state it ends in, whether it returns or
    raises. *)
Definition keeps (P : State -> State -> Prop) {A} (m : M A) : Prop :=
  forall s, P s (res_state (m s)).

(** The new calls [new] end in an operator invocation that raised [e],
    no earlier one raised, and the state [s'] holds the mesh as that
    invocation left it. *)
Definition aborted_by (e : PyExn) (s' : State) (new : list HostCall) : Prop :=
  exists pre pd seen,
    new = pre ++ [CallAction pd seen (Some e)] /\
    quiet pre /\
    fst (invoke (action_ (self s')) pd seen) = Some e /\
    edit_mesh s' = Some (snd (invoke (action_ (self s')) pd seen)).

(** A method only appends to the call log; when it returns no logged
    invocation raised, and when it raises either no invocation raised or
    the method stopped at the invocation that did. *)
Definition clean {A} (m : M A) : Prop :=
  forall s, exists new,
    calls (host (res_state (m s))) = calls (host s) ++ new /\
    match m s with
    | Ok _ _ => quiet new
    | Raise e s' => quiet new \/ aborted_by e s' new
    end.

(** The same instance up to its [verbose_] attribute. *)
Definition same_instance (a b : Self) : Prop :=
  set_verbose false a = set_verbose false b.

(** The same host up to what was printed on the console. *)
Definition same_host (h1 h2 : Host) : Prop :=
  active_object h1 = active_object h2 /\ calls h1 = calls h2.

Definition sim (s1 s2 : State) : Prop :=
  same_instance (self s1) (self s2) /\ same_host (host s1) (host s2).

(** Two methods that, from similar states, end the same way (same
    exception, or related values) in similar states. *)
Definition agree {A} (R : A -> A -> Prop) (m1 m2 : M A) : Prop :=
  forall s1 s2, sim s1 s2 ->
    match m1 s1, m2 s2 with
    | Ok a1 t1, Ok a2 t2 => R a1 a2 /\ sim t1 t2
    | Raise e1 t1, Raise e2 t2 => e1 = e2 /\ sim t1 t2
    | _, _ => False
    end.

(** ** States reached along a run *)

(** The state [s] after the host moved on: the edit mesh of the active
    object [o] is now [bm], [out] was printed and [new] was called. *)
Definition moved (s : State) (o : Object) (bm : BMesh)
    (out : list string) (new : list HostCall) : State :=
  {| self := self s;
     host := {| active_object := Some (with_data bm o);
                console := console (host s) ++ out;
                calls := calls (host s) ++ new;
                mode_switch := mode_switch (host s) |} |}.

(** What the console shows for one iteration before the operator runs. *)
Definition executing_line (me : Self) (idx : Z) : list string :=
  if verbose_ me
  then [("Executing  " ++ repr (action_ me) ++ "  on "
                       ++ sel_type_ me ++ str_Z idx)%string]
  else [].

Definition deselect_line (me : Self) : list string :=
  if verbose_ me then ["Deselect all faces"%string] else [].

(** On the mesh [seen], exactly one element of kind [kind] is selected:
    the one the index [idx] names. *)
Definition sees_only (kind : string) (idx : Z) (seen : BMesh) : Prop :=
  exists l p,
    getattr_bm seen kind = Some l /\
    py_index (length l) idx = Some p /\
    selected_positions l = [p].

(** There is an edit mesh and nothing of the configured kind is selected
    on it. *)
Definition cleared (s : State) : Prop :=
  exists o l,
    active_object (host s) = Some o /\
    getattr_bm (data o) (sel_type_ (self s)) = Some l /\
    selected_positions l = [].

(** What the console shows after a capture. *)
Definition selected_line (me : Self) (n : nat) : list string :=
  if verbose_ me
  then [("Selected  " ++ str_nat n ++ " " ++ sel_type_ me)%string]
  else [].

(** The state in which the apply loop starts: the capture is stored and
    everything is deselected. *)
Definition loop_start (s : State) (o : Object) (l : list BMElem) : State :=
  moved {| self := set_selection (captured l) (self s); host := host s |} o
        (deselect_mesh (data o))
        (selected_line (self s) (length (captured l)) ++ deselect_line (self s))
        [SelectAll "DESELECT"; UpdateEditMesh].

(** ** Sample data *)

Module Examples.

Definition elem (i : Z) (b : bool) : BMElem := {| index := i; select := b |}.

(** Four faces, three of them selected; some vertices and no edges. *)
Definition quad_strip : BMesh :=
  {| verts := [elem 0 true; elem 1 true; elem 2 false];
     edges := [];
     faces := [elem 0 true; elem 1 false; elem 2 true; elem 3 true] |}.

(** The same mesh with nothing selected among the vertices. *)
Definition bare_verts : BMesh :=
  {| verts := [elem 0 false; elem 1 false; elem 2 false];
     edges := [];
     faces := [elem 0 true; elem 1 false; elem 2 true; elem 3 true] |}.

(** An operator that changes nothing. *)
Definition identity : Action :=
  {| callable := true;
     idname_py := Some "mesh.identity"%string;
     repr := "<identity>"%string;
     invoke := fun _ bm => (None, bm) |}.

(** An operator that gives up, leaving a new face behind, when the face
    at position 2 is selected. *)
Definition fragile : Action :=
  {| callable := true;
     idname_py := Some "mesh.fragile"%string;
     repr := "<fragile>"%string;
     invoke := fun _ bm =>
       match faces bm !! 2%nat with
       | Some p =>
           if select p
           then (Some (RuntimeError "Error: operator failed"),
                 {| verts := verts bm; edges := edges bm;
                    faces := faces bm ++ [elem 4 true] |})
           else (None, bm)
       | None => (None, bm)
       end |}.

(** An operator that adds a face in front of the others, as an operator
    that creates geometry can: every older face moves one position up. *)
Definition growing : Action :=
  {| callable := true;
     idname_py := Some "mesh.growing"%string;
     repr := "<growing>"%string;
     invoke := fun _ bm =>
       (None, {| verts := verts bm; edges := edges bm;
                 faces := elem (-1) false :: faces bm |}) |}.

(** Something that is no operator at all. *)
Definition not_an_operator : Action :=
  {| callable := false;
     idname_py := None;
     repr := "'mesh.inset'"%string;
     invoke := fun _ bm => (None, bm) |}.

(** An operator of another category. *)
Definition object_operator : Action :=
  {| callable := true;
     idname_py := Some "object.mode_set"%string;
     repr := "<mode_set>"%string;
     invoke := fun _ bm => (None, bm) |}.

Definition instance (kind : string) (a : Action) (verbose : bool) : Self :=
  {| selection_ := []; sel_type_ := kind; action_ := a;
     param_dict_ := ∅; verbose_ := verbose;
     obj_ := Some ActiveObjectRef; bm_ := Some EditMeshRef |}.

(** A mesh object. *)
Definition mesh_object (m : string) (bm : BMesh) : Object :=
  {| mode := m; data := bm; data_type := "Mesh" |}.

(** A host whose mode switches leave the mesh data as it is. *)
Definition host_in (m : string) (bm : BMesh) : Host :=
  {| active_object := Some (mesh_object m bm);
     console := []; calls := []; mode_switch := fun _ bm' => bm' |}.

Definition no_active_object : Host :=
  {| active_object := None; console := []; calls := [];
     mode_switch := fun _ bm' => bm' |}.

(** A host whose active object is a curve, in the given mode. *)
Definition curve_host (m : string) : Host :=
  {| active_object :=
       Some {| mode := m;
               data := {| verts := []; edges := []; faces := [] |};
               data_type := "Curve" |};
     console := []; calls := []; mode_switch := fun _ bm' => bm' |}.

(** A host that, entering edit mode, rebuilds the mesh with valid
    indices and drops the selection of the first face. *)
Definition reflushing_host (bm : BMesh) : Host :=
  {| active_object := Some (mesh_object "EDIT" bm);
     console := []; calls := [];
     mode_switch := fun m bm' =>
       if String.eqb m "EDIT"
       then {| verts := verts bm'; edges := edges bm';
               faces := alter (set_select false) 0%nat (faces bm') |}
       else bm' |}.

(** A callable that is no host operator, such as a plain function: it
    has no [idname_py]. *)
Definition plain_function : Action :=
  {| callable := true;
     idname_py := None;
     repr := "<function>"%string;
     invoke := fun _ bm => (None, bm) |}.

Definition ready (kind : string) (a : Action) (verbose : bool) (bm : BMesh) : State :=
  {| self := instance kind a verbose; host := host_in "EDIT" bm |}.

(** The instance before [__init__] has assigned anything. *)
Definition fresh : Self :=
  {| selection_ := []; sel_type_ := ""; action_ := not_an_operator;
     param_dict_ := ∅; verbose_ := false; obj_ := None; bm_ := None |}.

End Examples.

(** The host calls of the run of [Examples.fragile] over the selected
    faces of [Examples.quad_strip]. *)
Definition fragile_run_calls : list HostCall :=
  Eval vm_compute in
    calls (host (res_state
      (run (Examples.ready "faces" Examples.fragile false Examples.quad_strip)))).

(** What [Examples.fragile] saw when it raised: only face 2 selected. *)
Definition fragile_seen : BMesh :=
  {| verts := [Examples.elem 0 false; Examples.elem 1 false; Examples.elem 2 false];
     edges := [];
     faces := [Examples.elem 0 false; Examples.elem 1 false;
               Examples.elem 2 true; Examples.elem 3 false] |}.

(** ** Restoring and validating *)

(** Selecting the positions [ps] one after the other. *)
Definition select_all_of (ps : list nat) (l : list BMElem) : list BMElem :=
  foldl (fun acc p => alter (set_select true) p acc) l ps.

(** The part of a string before its first [c]; the whole string if it
    has none. *)
Fixpoint before_first (c : ascii) (s : string) : string :=
  match s with
  | EmptyString => EmptyString
  | String a rest => if Ascii.eqb a c then EmptyString
                     else String a (before_first c rest)
  end.

(** ** Construction *)

(** The three checks of the constructor pass: the active object is in
    edit mode (line 66), the selection kind is one of the three names
    (line 78), and the action is callable with an identifier whose part
    before the first dot is "mesh" (lines 83-85). *)
Definition passes_checks (kind : string) (a : Action) (s : State) : Prop :=
  (exists o, active_object (host s) = Some o /\ mode o = "EDIT"%string) /\
  valid_kind kind /\
  callable a = true /\
  exists name, idname_py a = Some name /\ before_first "." name = "mesh"%string.

(** The object [o] after the host [h] has taken it to object mode and
    back to edit mode (lines 89-90). *)
Definition reentered (h : Host) (o : Object) : Object :=
  switched h "EDIT" (switched h "OBJECT" o).

(** The host [h] with active object [o] after the three host calls of
    [__read_selection]. *)
Definition round_tripped (h : Host) (o : Object) : Host :=
  {| active_object := Some (reentered h o);
     console := console h;
     calls := calls h ++ [ModeSet "OBJECT"; ModeSet "EDIT"; FromEditMesh];
     mode_switch := mode_switch h |}.

(** ** Console output *)

(** The two lines a verbose run prints for the captured index [idx]. *)
Definition iteration_lines (kind : string) (a : Action) (idx : Z) : list string :=
  [("Executing  " ++ repr a ++ "  on " ++ kind ++ str_Z idx)%string;
   "Deselect all faces"%string].

(** Everything a verbose run over the captured indices [sel] prints when
    it completes. *)
Definition verbose_transcript (kind : string) (a : Action) (sel : list Z)
    : list string :=
  [("Selected  " ++ str_nat (length sel) ++ " " ++ kind)%string;
   "Deselect all faces"%string]
  ++ flat_map (iteration_lines kind a) sel.

(** The positions the indices [sel] name in a sequence of [len]
    elements, when every one of them is in range. *)
Definition named_positions (len : nat) (sel : list Z) (ps : list nat) : Prop :=
  Forall2 (fun idx p => py_index len idx = Some p) sel ps.

(** * Proofs *)

(** ** Frame reasoning: what every step of a method keeps *)

Section Keeps.
Variable P : State -> State -> Prop.
Hypothesis P_refl : forall s, P s s.
Hypothesis P_trans : forall s1 s2 s3, P s1 s2 -> P s2 s3 -> P s1 s3.

Lemma keeps_ret {A} (a : A) : keeps P (ret a).
Proof. intros s. apply P_refl. Qed.

Lemma keeps_raise {A} (e : PyExn) : keeps P (@raise A e).
Proof. intros s. apply P_refl. Qed.

Lemma keeps_get_self : keeps P get_self.
Proof. intros s. apply P_refl. Qed.

Lemma keeps_the_object : keeps P the_object.
Proof.
  intros s. unfold the_object.
  destruct (active_object (host s)); apply P_refl.
Qed.

Lemma keeps_bind {A B} (m : M A) (k : A -> M B) :
  keeps P m -> (forall a, keeps P (k a)) -> keeps P (bind m k).
Proof.
  intros Hm Hk s. unfold bind.
  specialize (Hm s). destruct (m s) as [a s1 | e s1]; simpl in *.
  - eapply P_trans; [exact Hm | apply Hk].
  - exact Hm.
Qed.

Lemma keeps_when (b : bool) (m : M unit) : keeps P m -> keeps P (when b m).
Proof. destruct b; simpl; [auto | intros _; apply keeps_ret]. Qed.

Lemma keeps_for_each {A} (l : list A) (body : A -> M unit) :
  (forall x, keeps P (body x)) -> keeps P (for_each l body).
Proof.
  intros Hb. induction l as [| x rest IH]; simpl.
  - apply keeps_ret.
  - apply keeps_bind; [apply Hb | intros _; exact IH].
Qed.

End Keeps.

(** Breaks a [keeps] goal down along the structure of the method. *)
Ltac keeps_step :=
  match goal with
  | |- forall _, _ => intros ?
  | |- keeps _ (bind _ _) => apply keeps_bind; try assumption
  | |- keeps _ (ret _) => apply keeps_ret; assumption
  | |- keeps _ (raise _) => apply keeps_raise; assumption
  | |- keeps _ get_self => apply keeps_get_self; assumption
  | |- keeps _ the_object => apply keeps_the_object; assumption
  | |- keeps _ (when _ _) => apply keeps_when; try assumption
  | |- keeps _ (for_each _ _) => apply keeps_for_each; try assumption
  | |- keeps _ (if ?b then _ else _) => destruct b
  | |- keeps _ (match ?x with _ => _ end) => destruct x
  end.

Section HostOnly.
(** A relation between states that host changes cannot break and that
    only the instance's attributes decide. *)
Variable P : State -> State -> Prop.
Hypothesis P_refl : forall s, P s s.
Hypothesis P_trans : forall s1 s2 s3, P s1 s2 -> P s2 s3 -> P s1 s3.
Hypothesis P_host : forall s f, P s {| self := self s; host := f (host s) |}.
Hypothesis P_selection :
  forall s l, P s {| self := set_selection l (self s); host := host s |}.

Lemma keeps_host (f : Host -> Host) : keeps P (modify_host f).
Proof. intros s. exact (P_host s f). Qed.

Lemma keeps_set_selection (l : list Z) :
  keeps P (modify_self (set_selection l)).
Proof. intros s. exact (P_selection s l). Qed.

Local Ltac host_only :=
  repeat first
    [ assumption
    | keeps_step
    | apply keeps_host
    | apply keeps_set_selection ].

Lemma keeps_update_edit_mesh : keeps P update_edit_mesh.
Proof. unfold update_edit_mesh. host_only. Qed.

Lemma keeps_bm_seq : keeps P bm_seq.
Proof. unfold bm_seq. host_only. Qed.

Lemma keeps_deselect_all : keeps P __deselect_all.
Proof.
  pose proof keeps_update_edit_mesh.
  unfold __deselect_all, select_all_deselect. host_only.
Qed.

Lemma keeps_select_single_instance idx :
  keeps P (__select_single_instance idx).
Proof.
  pose proof keeps_update_edit_mesh. pose proof keeps_bm_seq.
  unfold __select_single_instance, ensure_lookup_table, select_elem.
  host_only.
Qed.

Lemma keeps_call_action : keeps P call_action.
Proof. unfold call_action. host_only. Qed.

Lemma keeps_store_selection : keeps P __store_selection.
Proof.
  pose proof keeps_bm_seq.
  unfold __store_selection. host_only.
Qed.

Lemma keeps_run : keeps P run.
Proof.
  pose proof keeps_store_selection. pose proof keeps_deselect_all.
  pose proof keeps_call_action.
  pose proof keeps_select_single_instance as Hsel.
  unfold run, __execute_action_on_selection, __restore_selection,
    __execute_action_on_selection_body.
  host_only; apply Hsel.
Qed.
End HostOnly.

(** ** Exceptions of the operator: how a method can end *)

Lemma quiet_nil : quiet [].
Proof. constructor. Qed.

Lemma quiet_app (l1 l2 : list HostCall) : quiet l1 -> quiet l2 -> quiet (l1 ++ l2).
Proof. unfold quiet. rewrite Forall_app. auto. Qed.

Lemma quiet_one (c : HostCall) : raising c = false -> quiet [c].
Proof. intros H. constructor; [exact H | constructor]. Qed.

#[local] Hint Resolve quiet_nil quiet_app quiet_one : core.

Lemma clean_silent {A} (m : M A) :
  (forall s, calls (host (res_state (m s))) = calls (host s)) -> clean m.
Proof.
  intros H s. exists []. rewrite app_nil_r. split; [apply H |].
  destruct (m s); auto.
Qed.

Lemma clean_ret {A} (a : A) : clean (ret a).
Proof. apply clean_silent. reflexivity. Qed.

Lemma clean_raise {A} (e : PyExn) : clean (@raise A e).
Proof. apply clean_silent. reflexivity. Qed.

Lemma clean_get_self : clean get_self.
Proof. apply clean_silent. reflexivity. Qed.

Lemma clean_the_object : clean the_object.
Proof.
  apply clean_silent. intros s. unfold the_object.
  destruct (active_object (host s)); reflexivity.
Qed.

Lemma clean_modify_self (f : Self -> Self) : clean (modify_self f).
Proof. apply clean_silent. reflexivity. Qed.

Lemma clean_print (line : string) : clean (modify_host (print line)).
Proof. apply clean_silent. reflexivity. Qed.

Lemma clean_log (c : HostCall) (g : Host -> Host) :
  raising c = false -> (forall h, calls (g h) = calls h) ->
  clean (modify_host (fun h => log c (g h))).
Proof.
  intros Hc Hg s. exists [c]. simpl. rewrite Hg. split; [reflexivity | auto].
Qed.

Lemma clean_bind {A B} (m : M A) (k : A -> M B) :
  clean m -> (forall a, clean (k a)) -> clean (bind m k).
Proof.
  intros Hm Hk s. unfold bind.
  destruct (Hm s) as (new1 & E1 & Q1).
  destruct (m s) as [a s1 | e s1]; simpl in *.
  - destruct (Hk a s1) as (new2 & E2 & Q2).
    exists (new1 ++ new2). rewrite E2, E1, app_assoc. split; [reflexivity |].
    destruct (k a s1) as [b s2 | e s2]; [auto |].
    destruct Q2 as [Q2 | (pre & pd & seen & -> & Qp & Hf & Hm2)]; [left; auto |].
    right. exists (new1 ++ pre), pd, seen. rewrite app_assoc. auto.
  - exists new1. auto.
Qed.

Lemma clean_when (b : bool) (m : M unit) : clean m -> clean (when b m).
Proof. destruct b; simpl; [auto | intros _; apply clean_ret]. Qed.

Lemma clean_for_each {A} (l : list A) (body : A -> M unit) :
  (forall x, clean (body x)) -> clean (for_each l body).
Proof.
  intros Hb. induction l as [| x rest IH]; simpl.
  - apply clean_ret.
  - apply clean_bind; [apply Hb | intros _; exact IH].
Qed.

Lemma clean_call_action : clean call_action.
Proof.
  intros s. unfold call_action, bind, get_self, the_object, modify_host, raise, ret.
  destruct (callable (action_ (self s))); [| exists []; rewrite app_nil_r; auto].
  destruct (active_object (host s)) as [o |] eqn:Ho;
    [| exists []; rewrite app_nil_r; auto].
  destruct (invoke (action_ (self s)) (param_dict_ (self s)) (data o))
    as [[e |] bm] eqn:Hi; simpl.
  - exists [CallAction (param_dict_ (self s)) (data o) (Some e)].
    split; [reflexivity |]. right.
    exists [], (param_dict_ (self s)), (data o). simpl.
    rewrite Hi. auto.
  - exists [CallAction (param_dict_ (self s)) (data o) None]. auto.
Qed.

Ltac clean_step :=
  match goal with
  | |- forall _, _ => intros ?
  | |- clean (bind _ _) => apply clean_bind
  | |- clean (ret _) => apply clean_ret
  | |- clean (raise _) => apply clean_raise
  | |- clean get_self => apply clean_get_self
  | |- clean the_object => apply clean_the_object
  | |- clean call_action => apply clean_call_action
  | |- clean (when _ _) => apply clean_when
  | |- clean (for_each _ _) => apply clean_for_each
  | |- clean (modify_self _) => apply clean_modify_self
  | |- clean (modify_host (print _)) => apply clean_print
  | |- clean (modify_host (log ?c)) =>
      apply (clean_log c (fun h => h)); [reflexivity | reflexivity]
  | |- clean (modify_host (fun h => log ?c (with_object ?o h))) =>
      apply (clean_log c (with_object o)); [reflexivity | reflexivity]
  | |- clean (if ?b then _ else _) => destruct b
  | |- clean (match ?x with _ => _ end) => destruct x
  end.

Lemma clean_deselect_all : clean __deselect_all.
Proof.
  unfold __deselect_all, select_all_deselect, update_edit_mesh.
  repeat clean_step.
Qed.

Lemma clean_select_single_instance (idx : Z) :
  clean (__select_single_instance idx).
Proof.
  unfold __select_single_instance, ensure_lookup_table, select_elem, bm_seq,
    update_edit_mesh.
  repeat clean_step.
Qed.

Lemma clean_run : clean run.
Proof.
  pose proof clean_deselect_all. pose proof clean_select_single_instance.
  unfold run, __store_selection, __execute_action_on_selection,
    __restore_selection, __execute_action_on_selection_body, bm_seq.
  repeat first [solve [auto] | clean_step].
Qed.

(** ** Two runs that differ in verbosity *)

Lemma same_instance_fields (a b : Self) :
  same_instance a b ->
  selection_ a = selection_ b /\ sel_type_ a = sel_type_ b /\
  action_ a = action_ b /\ param_dict_ a = param_dict_ b.
Proof.
  intros H. repeat split.
  - exact (f_equal selection_ H).
  - exact (f_equal sel_type_ H).
  - exact (f_equal action_ H).
  - exact (f_equal param_dict_ H).
Qed.

Lemma agree_ret {A} (R : A -> A -> Prop) (a1 a2 : A) :
  R a1 a2 -> agree R (ret a1) (ret a2).
Proof. intros H s1 s2 Hs. simpl. auto. Qed.

Lemma agree_raise {A} (R : A -> A -> Prop) (e : PyExn) :
  agree R (raise e) (raise e).
Proof. intros s1 s2 Hs. simpl. auto. Qed.

Lemma agree_bind {A B} (R : A -> A -> Prop) (R' : B -> B -> Prop)
    (m1 m2 : M A) (k1 k2 : A -> M B) :
  agree R m1 m2 ->
  (forall a1 a2, R a1 a2 -> agree R' (k1 a1) (k2 a2)) ->
  agree R' (bind m1 k1) (bind m2 k2).
Proof.
  intros Hm Hk s1 s2 Hs. unfold bind. specialize (Hm s1 s2 Hs).
  destruct (m1 s1) as [a1 t1 | e1 t1], (m2 s2) as [a2 t2 | e2 t2];
    try contradiction; destruct Hm as [Ha Ht].
  - exact (Hk a1 a2 Ha t1 t2 Ht).
  - auto.
Qed.

Lemma agree_get_self : agree same_instance get_self get_self.
Proof. intros s1 s2 Hs. simpl. split; [apply Hs | exact Hs]. Qed.

Lemma agree_the_object : agree eq the_object the_object.
Proof.
  intros s1 s2 Hs. unfold the_object.
  pose proof Hs as [Hi [Ho Hc]]. rewrite Ho.
  destruct (active_object (host s2)); split; auto.
Qed.

Lemma agree_modify_host (f : Host -> Host) :
  (forall h1 h2, same_host h1 h2 -> same_host (f h1) (f h2)) ->
  agree eq (modify_host f) (modify_host f).
Proof.
  intros Hf s1 s2 [Hi Hh]. simpl. repeat split; [exact Hi | apply Hf, Hh ..].
Qed.

Lemma agree_log (c : HostCall) :
  agree eq (modify_host (log c)) (modify_host (log c)).
Proof.
  apply agree_modify_host. intros h1 h2 [Ho Hc].
  split; simpl; [exact Ho | rewrite Hc; reflexivity].
Qed.

Lemma agree_log_object (c : HostCall) (o : Object) :
  agree eq (modify_host (fun h => log c (with_object o h)))
           (modify_host (fun h => log c (with_object o h))).
Proof.
  apply agree_modify_host. intros h1 h2 [Ho Hc].
  split; simpl; [reflexivity | rewrite Hc; reflexivity].
Qed.

Lemma agree_set_selection (l : list Z) :
  agree eq (modify_self (set_selection l)) (modify_self (set_selection l)).
Proof.
  intros s1 s2 [Hi Hh]. simpl. repeat split; try apply Hh.
  unfold same_instance, set_verbose, set_selection in *. simpl.
  injection Hi as _ Hk Ha Hp Ho Hb. congruence.
Qed.

(** Printing or not printing, and whatever is printed, makes no
    difference. *)
Lemma agree_when_print (b1 b2 : bool) (l1 l2 : string) :
  agree eq (when b1 (modify_host (print l1))) (when b2 (modify_host (print l2))).
Proof.
  intros s1 s2 [Hi [Ho Hc]]. destruct b1, b2; simpl; repeat split; auto.
Qed.

Lemma agree_for_each {A} (l : list A) (body1 body2 : A -> M unit) :
  (forall x, agree eq (body1 x) (body2 x)) ->
  agree eq (for_each l body1) (for_each l body2).
Proof.
  intros Hb. induction l as [| x rest IH]; simpl.
  - apply agree_ret. reflexivity.
  - eapply agree_bind; [apply Hb | intros _ _ _; exact IH].
Qed.

(** Names the instances read by [get_self] on both sides and identifies
    their attributes other than [verbose_]. *)
Ltac agree_self :=
  eapply agree_bind; [apply agree_get_self |];
  let a1 := fresh "me1" in
  let a2 := fresh "me2" in
  let H := fresh "Hme" in
  intros a1 a2 H;
  let H1 := fresh in
  let H2 := fresh in
  let H3 := fresh in
  let H4 := fresh in
  destruct (same_instance_fields _ _ H) as (H1 & H2 & H3 & H4);
  rewrite ?H1, ?H2, ?H3, ?H4.

Ltac agree_seq lem := eapply agree_bind; [apply lem |]; intros ? ? <-.

Lemma agree_update_edit_mesh : agree eq update_edit_mesh update_edit_mesh.
Proof.
  unfold update_edit_mesh. agree_seq agree_the_object. apply agree_log.
Qed.

Lemma agree_bm_seq : agree eq bm_seq bm_seq.
Proof.
  unfold bm_seq. agree_self. agree_seq agree_the_object.
  destruct (getattr_bm _ _); [apply agree_ret; reflexivity | apply agree_raise].
Qed.

Lemma agree_deselect_all : agree eq __deselect_all __deselect_all.
Proof.
  unfold __deselect_all, select_all_deselect.
  agree_self. agree_seq agree_when_print.
  eapply agree_bind; [| intros ? ? _; apply agree_update_edit_mesh].
  agree_seq agree_the_object. apply agree_log_object.
Qed.

Lemma agree_select_single_instance (idx : Z) :
  agree eq (__select_single_instance idx) (__select_single_instance idx).
Proof.
  unfold __select_single_instance, ensure_lookup_table, select_elem.
  eapply agree_bind with (R := eq).
  { agree_self. agree_seq agree_bm_seq. apply agree_log. }
  intros _ _ _. eapply agree_bind with (R := eq);
    [| intros _ _ _; apply agree_update_edit_mesh].
  agree_self. agree_seq agree_bm_seq. agree_seq agree_the_object.
  destruct (py_index _ _); [apply agree_log_object | apply agree_raise].
Qed.

Lemma agree_call_action : agree eq call_action call_action.
Proof.
  unfold call_action. agree_self.
  destruct (callable _); [| apply agree_raise].
  agree_seq agree_the_object.
  eapply agree_bind with (R := eq); [apply agree_log_object |].
  intros _ _ _.
  destruct (fst _); [apply agree_raise | apply agree_ret; reflexivity].
Qed.

Lemma agree_store_selection : agree eq __store_selection __store_selection.
Proof.
  unfold __store_selection. agree_seq agree_bm_seq.
  eapply agree_bind with (R := eq); [apply agree_set_selection |].
  intros _ _ _. agree_self.
  destruct (_ =? _)%nat; [apply agree_raise | apply agree_when_print].
Qed.

Lemma agree_run : agree eq run run.
Proof.
  unfold run, __execute_action_on_selection, __restore_selection.
  eapply agree_bind with (R := eq); [apply agree_store_selection |].
  intros _ _ _.
  eapply agree_bind with (R := eq); [apply agree_deselect_all |].
  intros _ _ _.
  eapply agree_bind with (R := eq).
  - agree_self. apply agree_for_each. intros idx.
    unfold __execute_action_on_selection_body.
    eapply agree_bind with (R := eq); [apply agree_select_single_instance |].
    intros _ _ _. agree_self.
    eapply agree_bind with (R := eq); [apply agree_when_print |].
    intros _ _ _.
    eapply agree_bind with (R := eq); [apply agree_call_action |].
    intros _ _ _. apply agree_deselect_all.
  - intros _ _ _. agree_self. apply agree_for_each.
    apply agree_select_single_instance.
Qed.

(** ** Sequences, kinds and indices *)

Lemma valid_kind_cases (kind : string) :
  valid_kind kind ->
  kind = "verts"%string \/ kind = "edges"%string \/ kind = "faces"%string.
Proof.
  unfold valid_kind, str_in. simpl. intros H.
  destruct (String.eqb_spec kind "verts"); [auto |].
  destruct (String.eqb_spec kind "edges"); [auto |].
  destruct (String.eqb_spec kind "faces"); [auto |].
  discriminate.
Qed.

Lemma getattr_valid (bm : BMesh) (kind : string) :
  valid_kind kind -> exists l, getattr_bm bm kind = Some l.
Proof.
  intros H. destruct (valid_kind_cases _ H) as [-> | [-> | ->]];
    eexists; reflexivity.
Qed.

Lemma getattr_with_seq (bm : BMesh) (kind : string) (l : list BMElem) :
  valid_kind kind -> getattr_bm (with_seq bm kind l) kind = Some l.
Proof.
  intros H. destruct (valid_kind_cases _ H) as [-> | [-> | ->]]; reflexivity.
Qed.

Lemma getattr_deselect (bm : BMesh) (kind : string) :
  getattr_bm (deselect_mesh bm) kind = deselect_seq <$> getattr_bm bm kind.
Proof.
  unfold getattr_bm.
  destruct (String.eqb kind "verts"); [reflexivity |].
  destruct (String.eqb kind "edges"); [reflexivity |].
  destruct (String.eqb kind "faces"); reflexivity.
Qed.

Lemma with_seq_getattr (bm : BMesh) (kind : string) (l : list BMElem) :
  getattr_bm bm kind = Some l -> with_seq bm kind l = bm.
Proof.
  unfold getattr_bm, with_seq. destruct bm as [v e f]. simpl.
  destruct (String.eqb kind "verts"); [congruence |].
  destruct (String.eqb kind "edges"); [congruence |].
  destruct (String.eqb kind "faces"); congruence.
Qed.

Lemma with_seq_with_seq (bm : BMesh) (kind : string) (l1 l2 : list BMElem) :
  with_seq (with_seq bm kind l1) kind l2 = with_seq bm kind l2.
Proof.
  unfold with_seq.
  destruct (String.eqb kind "verts") eqn:Ev; [reflexivity |].
  destruct (String.eqb kind "edges") eqn:Ee; [reflexivity |].
  destruct (String.eqb kind "faces") eqn:Ef; reflexivity.
Qed.

Lemma deselect_with_seq (bm : BMesh) (kind : string) (l : list BMElem) :
  deselect_mesh (with_seq bm kind l)
  = with_seq (deselect_mesh bm) kind (deselect_seq l).
Proof.
  unfold with_seq.
  destruct (String.eqb kind "verts"); [reflexivity |].
  destruct (String.eqb kind "edges"); [reflexivity |].
  destruct (String.eqb kind "faces"); reflexivity.
Qed.

Lemma deselect_seq_idemp (l : list BMElem) :
  deselect_seq (deselect_seq l) = deselect_seq l.
Proof.
  unfold deselect_seq. rewrite <- list_fmap_compose. reflexivity.
Qed.

Lemma deselect_mesh_idemp (bm : BMesh) :
  deselect_mesh (deselect_mesh bm) = deselect_mesh bm.
Proof.
  unfold deselect_mesh. simpl. rewrite !deselect_seq_idemp. reflexivity.
Qed.

Lemma deselect_seq_alter (p : nat) (l : list BMElem) :
  deselect_seq (alter (set_select true) p l) = deselect_seq l.
Proof.
  unfold deselect_seq. revert p.
  induction l as [| x rest IH]; intros [| p]; simpl; try reflexivity.
  f_equal. apply IH.
Qed.

Lemma selected_from_deselect (i : nat) (l : list BMElem) :
  selected_from i (deselect_seq l) = [].
Proof.
  revert i. induction l as [| x rest IH]; intros i; simpl; [reflexivity | apply IH].
Qed.

(** Selecting one element of a sequence with nothing selected leaves
    exactly that element selected. *)
Lemma selected_from_alter (i p : nat) (l : list BMElem) :
  selected_from i l = [] -> p < length l ->
  selected_from i (alter (set_select true) p l) = [i + p].
Proof.
  revert i p. induction l as [| x rest IH]; intros i p Hnone Hp; simpl in *.
  - lia.
  - destruct (select x) eqn:Hx; [discriminate |].
    destruct p as [| p]; simpl.
    + rewrite Hnone. f_equal. lia.
    + rewrite Hx. change (list_alter ?f ?k ?r) with (alter f k r).
      rewrite (IH (S i) p Hnone); [f_equal; lia | lia].
Qed.

Lemma py_index_lt (len : nat) (idx : Z) (p : nat) :
  py_index len idx = Some p -> p < len.
Proof.
  unfold py_index. intros H.
  destruct (idx <? 0)%Z;
    match type of H with
    | (if ?c then _ else _) = _ => destruct c eqn:Hc; [| discriminate]
    end; injection H as <-; apply andb_prop in Hc as [H0 H1]; lia.
Qed.

Lemma py_index_nonneg (len : nat) (i : nat) :
  i < len -> py_index len (Z.of_nat i) = Some i.
Proof.
  intros H. unfold py_index.
  destruct (Z.ltb_spec (Z.of_nat i) 0); [lia |].
  destruct (Z.leb_spec 0 (Z.of_nat i)); [| lia].
  destruct (Z.ltb_spec (Z.of_nat i) (Z.of_nat len)); [| lia].
  simpl. rewrite Nat2Z.id. reflexivity.
Qed.

Lemma invocations_app (l1 l2 : list HostCall) :
  invocations (l1 ++ l2) = invocations l1 ++ invocations l2.
Proof.
  induction l1 as [| c rest IH]; simpl; [reflexivity |].
  destruct c; simpl; rewrite IH; reflexivity.
Qed.

Lemma select_calls_app (l1 l2 : list HostCall) :
  select_calls (l1 ++ l2) = select_calls l1 ++ select_calls l2.
Proof.
  induction l1 as [| c rest IH]; simpl; [reflexivity |].
  destruct c; simpl; rewrite IH; reflexivity.
Qed.

Lemma select_calls_restore (kind : string) (sel : list Z) :
  select_calls (restore_calls kind sel) = sel.
Proof.
  induction sel as [| idx rest IH]; simpl; [reflexivity | rewrite IH; reflexivity].
Qed.


(** ** The methods, step by step *)

Lemma moved_moved s o bm out new bm' out' new' :
  moved (moved s o bm out new) (with_data bm o) bm' out' new'
  = moved s o bm' (out ++ out') (new ++ new').
Proof. unfold moved. simpl. rewrite !app_assoc. reflexivity. Qed.

Lemma moved_nothing s o :
  active_object (host s) = Some o -> moved s o (data o) [] [] = s.
Proof.
  destruct s as [me [ao c cs]], o as [m d]. simpl. intros ->.
  unfold moved. simpl. rewrite !app_nil_r. reflexivity.
Qed.

Lemma verbose_line_moved s o (b : bool) (line : string) :
  active_object (host s) = Some o ->
  when b (modify_host (print line)) s
  = Ok tt (moved s o (data o) (if b then [line] else []) []).
Proof.
  intros Ho. destruct b; simpl.
  - destruct s as [me [ao c cs]], o as [m d]. simpl in *. subst ao.
    unfold modify_host, moved, print. simpl. rewrite app_nil_r. reflexivity.
  - rewrite (moved_nothing s o Ho). reflexivity.
Qed.

Lemma deselect_all_moved s o :
  active_object (host s) = Some o ->
  __deselect_all s
  = Ok tt (moved s o (deselect_mesh (data o))
             (if verbose_ (self s) then ["Deselect all faces"%string] else [])
             [SelectAll "DESELECT"; UpdateEditMesh]).
Proof.
  destruct s as [me [ao c cs]]. simpl. intros ->.
  unfold __deselect_all, select_all_deselect, update_edit_mesh, bind, get_self,
    the_object, modify_host, moved, when, ret.
  simpl. destruct (verbose_ me); unfold log, with_object, print; simpl;
    rewrite <- ?app_assoc, ?app_nil_r; reflexivity.
Qed.

Lemma select_single_instance_moved s o l p idx :
  active_object (host s) = Some o ->
  getattr_bm (data o) (sel_type_ (self s)) = Some l ->
  py_index (length l) idx = Some p ->
  __select_single_instance idx s
  = Ok tt (moved s o
             (with_seq (data o) (sel_type_ (self s)) (alter (set_select true) p l))
             [] (select_single_calls (sel_type_ (self s)) idx)).
Proof.
  destruct s as [me [ao c cs]]. simpl. intros -> Hl Hp.
  unfold __select_single_instance, ensure_lookup_table, select_elem,
    update_edit_mesh, bm_seq, bind, get_self, the_object, modify_host, moved.
  simpl. rewrite Hl. simpl. rewrite Hl. simpl. rewrite Hp.
  unfold log, with_object. simpl.
  rewrite <- !app_assoc, app_nil_r. reflexivity.
Qed.

Lemma select_single_instance_out_of_range s o l idx :
  active_object (host s) = Some o ->
  getattr_bm (data o) (sel_type_ (self s)) = Some l ->
  py_index (length l) idx = None ->
  __select_single_instance idx s
  = Raise (index_error (length l) idx)
      (moved s o (data o) [] [EnsureLookupTable (sel_type_ (self s))]).
Proof.
  destruct s as [me [ao c cs]], o as [m d]. simpl. intros -> Hl Hp.
  unfold __select_single_instance, ensure_lookup_table, select_elem,
    update_edit_mesh, bm_seq, bind, get_self, the_object, modify_host, moved.
  simpl. rewrite Hl. simpl. rewrite Hl. simpl. rewrite Hp.
  unfold log, with_object, with_data. simpl.
  rewrite app_nil_r. reflexivity.
Qed.

Lemma call_action_moved s o :
  active_object (host s) = Some o ->
  callable (action_ (self s)) = true ->
  let out := invoke (action_ (self s)) (param_dict_ (self s)) (data o) in
  let s' := moved s o (snd out) []
              [CallAction (param_dict_ (self s)) (data o) (fst out)] in
  call_action s = match fst out with
                  | Some e => Raise e s'
                  | None => Ok tt s'
                  end.
Proof.
  destruct s as [me [ao c cs]]. simpl. intros -> Hc.
  unfold call_action, bind, get_self, the_object, modify_host, moved.
  simpl. rewrite Hc. unfold log, with_object. simpl. rewrite app_nil_r.
  destruct (fst _); reflexivity.
Qed.

Lemma call_action_not_callable s :
  callable (action_ (self s)) = false ->
  call_action s = Raise (TypeError "object is not callable") s.
Proof.
  intros Hc. unfold call_action, bind, get_self. rewrite Hc. reflexivity.
Qed.

Lemma store_selection_moved s o l :
  active_object (host s) = Some o ->
  getattr_bm (data o) (sel_type_ (self s)) = Some l ->
  let s1 := {| self := set_selection (captured l) (self s); host := host s |} in
  __store_selection s
  = if (length (captured l) =? 0)%nat then
      Raise (UserWarning ("No " ++ sel_type_ (self s) ++ " were selected")) s1
    else
      Ok tt (moved s1 o (data o)
               (if verbose_ (self s)
                then [("Selected  " ++ str_nat (length (captured l))
                                    ++ " " ++ sel_type_ (self s))%string]
                else []) []).
Proof.
  intros Ho Hl. simpl.
  unfold __store_selection, bm_seq, bind, get_self, the_object, modify_self.
  rewrite Ho, Hl. simpl. fold (captured l).
  destruct (length (captured l) =? 0)%nat; [reflexivity |].
  apply (verbose_line_moved
           {| self := set_selection (captured l) (self s); host := host s |} o).
  exact Ho.
Qed.

Lemma bind_Ok {A B} (m : M A) (k : A -> M B) s a s' :
  m s = Ok a s' -> bind m k s = k a s'.
Proof. intros H. unfold bind. rewrite H. reflexivity. Qed.

Lemma bind_Raise {A B} (m : M A) (k : A -> M B) s e s' :
  m s = Raise e s' -> bind m k s = Raise e s'.
Proof. intros H. unfold bind. rewrite H. reflexivity. Qed.

(** One iteration of the apply loop whose index is in range, with a
    callable operator. *)
Lemma body_moved s o l p idx :
  active_object (host s) = Some o ->
  getattr_bm (data o) (sel_type_ (self s)) = Some l ->
  py_index (length l) idx = Some p ->
  callable (action_ (self s)) = true ->
  let kind := sel_type_ (self s) in
  let bm1 := with_seq (data o) kind (alter (set_select true) p l) in
  let out := invoke (action_ (self s)) (param_dict_ (self s)) bm1 in
  __execute_action_on_selection_body idx s
  = match fst out with
    | Some e =>
        Raise e (moved s o (snd out) (executing_line (self s) idx)
                   (select_single_calls kind idx
                    ++ [CallAction (param_dict_ (self s)) bm1 (Some e)]))
    | None =>
        Ok tt (moved s o (deselect_mesh (snd out))
                 (executing_line (self s) idx ++ deselect_line (self s))
                 (select_single_calls kind idx
                  ++ [CallAction (param_dict_ (self s)) bm1 None;
                      SelectAll "DESELECT"; UpdateEditMesh]))
    end.
Proof.
  intros Ho Hl Hp Hc kind bm1 out.
  unfold __execute_action_on_selection_body.
  rewrite (bind_Ok _ _ _ _ _ (select_single_instance_moved s o l p idx Ho Hl Hp)).
  fold kind. fold bm1.
  set (s1 := moved s o bm1 [] (select_single_calls kind idx)).
  rewrite (bind_Ok get_self _ s1 (self s1) s1 eq_refl).
  rewrite (bind_Ok _ _ _ _ _
             (verbose_line_moved s1 (with_data bm1 o) _ _ eq_refl)).
  unfold s1 at 1. rewrite moved_moved. simpl.
  fold (executing_line (self s) idx).
  set (s2 := moved s o bm1 _ _).
  pose proof (call_action_moved s2 (with_data bm1 o) eq_refl Hc) as Hcall.
  simpl in Hcall. fold out in Hcall.
  unfold s2 in Hcall at 2 3. rewrite !moved_moved in Hcall.
  rewrite !app_nil_r in Hcall.
  destruct (fst out) as [e |] eqn:Hout.
  - rewrite (bind_Raise _ _ _ _ _ Hcall). reflexivity.
  - rewrite (bind_Ok _ _ _ _ _ Hcall).
    erewrite deselect_all_moved; [| reflexivity].
    rewrite moved_moved. simpl. reflexivity.
Qed.

Lemma body_not_callable s o l p idx :
  active_object (host s) = Some o ->
  getattr_bm (data o) (sel_type_ (self s)) = Some l ->
  py_index (length l) idx = Some p ->
  callable (action_ (self s)) = false ->
  let kind := sel_type_ (self s) in
  __execute_action_on_selection_body idx s
  = Raise (TypeError "object is not callable")
      (moved s o (with_seq (data o) kind (alter (set_select true) p l))
         (executing_line (self s) idx) (select_single_calls kind idx)).
Proof.
  intros Ho Hl Hp Hc kind.
  unfold __execute_action_on_selection_body.
  rewrite (bind_Ok _ _ _ _ _ (select_single_instance_moved s o l p idx Ho Hl Hp)).
  fold kind.
  set (bm1 := with_seq _ _ _).
  set (s1 := moved s o bm1 [] (select_single_calls kind idx)).
  rewrite (bind_Ok get_self _ s1 (self s1) s1 eq_refl).
  rewrite (bind_Ok _ _ _ _ _
             (verbose_line_moved s1 (with_data bm1 o) _ _ eq_refl)).
  unfold s1 at 1. rewrite moved_moved. simpl.
  fold (executing_line (self s) idx).
  apply bind_Raise. apply call_action_not_callable. exact Hc.
Qed.

Lemma body_out_of_range s o l idx :
  active_object (host s) = Some o ->
  getattr_bm (data o) (sel_type_ (self s)) = Some l ->
  py_index (length l) idx = None ->
  __execute_action_on_selection_body idx s
  = Raise (index_error (length l) idx)
      (moved s o (data o) [] [EnsureLookupTable (sel_type_ (self s))]).
Proof.
  intros Ho Hl Hp. unfold __execute_action_on_selection_body.
  apply bind_Raise. apply select_single_instance_out_of_range; assumption.
Qed.

(** ** The apply loop and the restore phase *)

Lemma cleared_after_deselect s o bm out new :
  valid_kind (sel_type_ (self s)) ->
  cleared (moved s o (deselect_mesh bm) out new).
Proof.
  intros Hk. destruct (getattr_valid bm _ Hk) as [l Hl].
  exists (with_data (deselect_mesh bm) o), (deselect_seq l). simpl.
  rewrite getattr_deselect, Hl. repeat split.
  apply selected_from_deselect.
Qed.

Lemma sees_only_after_select bm kind l p idx :
  valid_kind kind ->
  py_index (length l) idx = Some p ->
  selected_positions l = [] ->
  sees_only kind idx (with_seq bm kind (alter (set_select true) p l)).
Proof.
  intros Hk Hp Hnone. exists (alter (set_select true) p l), p.
  rewrite getattr_with_seq by exact Hk. rewrite length_alter.
  repeat split; [exact Hp |].
  apply (selected_from_alter 0 p l Hnone), (py_index_lt _ _ _ Hp).
Qed.

Lemma apply_loop_spec (sel : list Z) :
  forall s, valid_kind (sel_type_ (self s)) -> cleared s ->
  let r := for_each sel __execute_action_on_selection_body s in
  exists new,
    calls (host (res_state r)) = calls (host s) ++ new /\
    Forall2 (sees_only (sel_type_ (self s)))
            (take (length (invocations new)) sel) (invocations new) /\
    match r with
    | Ok _ s' =>
        select_calls new = sel /\ length (invocations new) = length sel /\
        self s' = self s /\ cleared s'
    | Raise _ _ => True
    end.
Proof.
  induction sel as [| idx rest IH]; intros s Hk Hclr; simpl.
  - exists []. rewrite app_nil_r. repeat split; [constructor | exact Hclr].
  - destruct Hclr as (o & l & Ho & Hl & Hnone).
    destruct (py_index (length l) idx) as [p |] eqn:Hp.
    2: { rewrite (bind_Raise _ _ _ _ _ (body_out_of_range s o l idx Ho Hl Hp)).
         eexists. split; [reflexivity |]. simpl. split; [constructor | exact I]. }
    destruct (callable (action_ (self s))) eqn:Hc.
    2: { rewrite (bind_Raise _ _ _ _ _ (body_not_callable s o l p idx Ho Hl Hp Hc)).
         eexists. split; [reflexivity |]. simpl. split; [constructor | exact I]. }
    pose proof (body_moved s o l p idx Ho Hl Hp Hc) as Hbody. simpl in Hbody.
    pose proof (sees_only_after_select (data o) _ l p idx Hk Hp Hnone) as Hsees.
    destruct (fst (invoke _ _ _)) as [e |].
    + rewrite (bind_Raise _ _ _ _ _ Hbody).
      eexists. split; [reflexivity |]. simpl.
      split; [constructor; [exact Hsees | constructor] | exact I].
    + rewrite (bind_Ok _ _ _ _ _ Hbody).
      match type of Hbody with _ = Ok _ ?t => set (s1 := t) in * end.
      destruct (IH s1 Hk (cleared_after_deselect s o _ _ _ Hk))
        as (new2 & Hcalls & Hall & Hok).
      eexists. split; [rewrite Hcalls; simpl; rewrite <- app_assoc; reflexivity |].
      rewrite invocations_app, select_calls_app. simpl.
      split; [constructor; [exact Hsees | exact Hall] |].
      destruct (for_each rest _ s1); [| exact I].
      destruct Hok as (-> & -> & Hself & Hclr). auto.
Qed.

Lemma restore_loop_spec (sel : list Z) :
  forall s o, valid_kind (sel_type_ (self s)) ->
  active_object (host s) = Some o ->
  let r := for_each sel __select_single_instance s in
  exists new,
    calls (host (res_state r)) = calls (host s) ++ new /\
    invocations new = [] /\
    match r with
    | Ok _ s' => new = restore_calls (sel_type_ (self s)) sel /\ self s' = self s
    | Raise _ _ => True
    end.
Proof.
  induction sel as [| idx rest IH]; intros s o Hk Ho; simpl.
  - exists []. rewrite app_nil_r. auto.
  - destruct (getattr_valid (data o) _ Hk) as [l Hl].
    destruct (py_index (length l) idx) as [p |] eqn:Hp.
    + rewrite (bind_Ok _ _ _ _ _ (select_single_instance_moved s o l p idx Ho Hl Hp)).
      set (s1 := moved s o _ _ _).
      destruct (IH s1 _ Hk eq_refl) as (new2 & Hcalls & Hinv & Hok).
      eexists. split; [rewrite Hcalls; simpl; rewrite <- app_assoc; reflexivity |].
      rewrite invocations_app, Hinv. split; [reflexivity |].
      destruct (for_each rest _ s1); [| exact I].
      destruct Hok as [-> Hself]. auto.
    + rewrite (bind_Raise _ _ _ _ _
                 (select_single_instance_out_of_range s o l idx Ho Hl Hp)).
      eexists. split; [reflexivity |]. auto.
Qed.

(** ** The four phases of [run] *)

Lemma getattr_Some_valid (bm : BMesh) (kind : string) (l : list BMElem) :
  getattr_bm bm kind = Some l -> valid_kind kind.
Proof.
  unfold getattr_bm, valid_kind, str_in. simpl.
  destruct (String.eqb kind "verts"); [reflexivity |].
  destruct (String.eqb kind "edges"); [reflexivity |].
  destruct (String.eqb kind "faces"); [reflexivity | discriminate].
Qed.

Lemma kind_seq_Some s l :
  kind_seq s = Some l ->
  exists o, active_object (host s) = Some o /\
            getattr_bm (data o) (sel_type_ (self s)) = Some l.
Proof.
  unfold kind_seq, edit_mesh. destruct (active_object (host s)) as [o |]; simpl.
  - intros H. exists o. auto.
  - discriminate.
Qed.

Lemma run_without_object s :
  active_object (host s) = None ->
  run s = Raise (ReferenceError "StructRNA of type Object has been removed") s.
Proof.
  intros Ho. unfold run, __store_selection, bm_seq, bind, get_self, the_object.
  rewrite Ho. reflexivity.
Qed.

Lemma run_without_attribute s o :
  active_object (host s) = Some o ->
  getattr_bm (data o) (sel_type_ (self s)) = None ->
  run s = Raise (AttributeError "'BMesh' object has no such attribute") s.
Proof.
  intros Ho Hl. unfold run, __store_selection, bm_seq, bind, get_self, the_object.
  rewrite Ho, Hl. reflexivity.
Qed.

Lemma run_empty_selection s o l :
  active_object (host s) = Some o ->
  getattr_bm (data o) (sel_type_ (self s)) = Some l ->
  captured l = [] ->
  run s = Raise (UserWarning ("No " ++ sel_type_ (self s) ++ " were selected"))
            {| self := set_selection [] (self s); host := host s |}.
Proof.
  intros Ho Hl Hnone. unfold run.
  pose proof (store_selection_moved s o l Ho Hl) as Hstore. simpl in Hstore.
  rewrite Hnone in Hstore. simpl in Hstore.
  apply bind_Raise. exact Hstore.
Qed.

Lemma loop_then_restore s (sel : list Z) :
  selection_ (self s) = sel ->
  valid_kind (sel_type_ (self s)) -> cleared s ->
  (__execute_action_on_selection ;; __restore_selection) s
  = (for_each sel __execute_action_on_selection_body ;;
     for_each sel __select_single_instance) s.
Proof.
  intros Hsel Hk Hclr.
  unfold __execute_action_on_selection, __restore_selection, bind, get_self.
  rewrite Hsel.
  destruct (apply_loop_spec sel s Hk Hclr) as (new & _ & _ & Hok).
  destruct (for_each sel __execute_action_on_selection_body s) as [[] s3 | e s3];
    [| reflexivity].
  destruct Hok as (_ & _ & Hself & _). rewrite Hself, Hsel. reflexivity.
Qed.

Lemma run_phases s o l :
  active_object (host s) = Some o ->
  getattr_bm (data o) (sel_type_ (self s)) = Some l ->
  captured l <> [] ->
  run s = (for_each (captured l) __execute_action_on_selection_body ;;
           for_each (captured l) __select_single_instance) (loop_start s o l).
Proof.
  intros Ho Hl Hsome. unfold run.
  pose proof (store_selection_moved s o l Ho Hl) as Hstore. simpl in Hstore.
  destruct (length (captured l) =? 0)%nat eqn:Hlen.
  { apply Nat.eqb_eq in Hlen. destruct (captured l); [congruence | discriminate]. }
  fold (selected_line (self s) (length (captured l))) in Hstore.
  rewrite (bind_Ok _ _ _ _ _ Hstore).
  erewrite (bind_Ok __deselect_all); [| apply deselect_all_moved; reflexivity].
  rewrite moved_moved. simpl.
  fold (deselect_line (self s)). fold (loop_start s o l).
  apply loop_then_restore.
  - reflexivity.
  - exact (getattr_Some_valid _ _ _ Hl).
  - apply cleared_after_deselect. exact (getattr_Some_valid _ _ _ Hl).
Qed.

Lemma captured_none (l : list BMElem) :
  Forall (fun p => select p = false) l -> captured l = [].
Proof.
  unfold captured. induction 1 as [| p rest Hp _ IH]; [reflexivity |].
  rewrite filter_cons_False by (rewrite Hp; discriminate).
  exact IH.
Qed.

(** ** Properties of [run] *)

(** C2: during the apply loop, at the moment of every invocation of the
    configured operator exactly one element of the configured kind is
    selected, the one at the current loop index of the captured
    selection, however many elements were selected at capture time: the
    mesh the k-th invocation of a run finds has [seq[idx]] selected, for
    [idx] the k-th captured index, and no other element of that kind.  A
    run that returns has invoked the operator once per captured index. *)
Theorem operator_sees_single_selected_element (s : State) :
  let sel := match kind_seq s with Some l => captured l | None => [] end in
  exists new,
    calls (host (res_state (run s))) = calls (host s) ++ new /\
    Forall2 (sees_only (sel_type_ (self s)))
            (take (length (invocations new)) sel) (invocations new) /\
    (res_exn (run s) = None -> length (invocations new) = length sel).
Proof.
  unfold kind_seq, edit_mesh.
  destruct (active_object (host s)) as [o |] eqn:Ho; simpl.
  2: { rewrite (run_without_object s Ho). exists []. simpl.
       rewrite app_nil_r. split; [reflexivity |].
       split; [constructor | discriminate]. }
  destruct (getattr_bm (data o) (sel_type_ (self s))) as [l |] eqn:Hl.
  2: { rewrite (run_without_attribute s o Ho Hl). exists []. simpl.
       rewrite app_nil_r. split; [reflexivity |].
       split; [constructor | discriminate]. }
  destruct (captured l) as [| i0 rest] eqn:Hcap.
  { rewrite (run_empty_selection s o l Ho Hl Hcap). exists []. simpl.
    rewrite app_nil_r. split; [reflexivity |].
       split; [constructor | discriminate]. }
  rewrite (run_phases s o l Ho Hl) by congruence. rewrite Hcap.
  pose proof (getattr_Some_valid _ _ _ Hl) as Hk.
  set (s2 := loop_start s o l).
  destruct (apply_loop_spec (i0 :: rest) s2 Hk
              (cleared_after_deselect _ o _ _ _ Hk))
    as (new1 & Hcalls1 & Hall & Hok).
  unfold bind.
  destruct (for_each (i0 :: rest) __execute_action_on_selection_body s2)
    as [[] s3 | e s3].
  - destruct Hok as (_ & Hlen & Hself & (o3 & l3 & Ho3 & _)).
    assert (Hk3 : valid_kind (sel_type_ (self s3))) by (rewrite Hself; exact Hk).
    destruct (restore_loop_spec (i0 :: rest) s3 o3 Hk3 Ho3)
      as (new2 & Hcalls2 & Hinv2 & _).
    exists ([SelectAll "DESELECT"; UpdateEditMesh] ++ new1 ++ new2).
    rewrite Hcalls2. simpl in Hcalls1. rewrite Hcalls1.
    split; [simpl; rewrite <- !app_assoc; reflexivity |].
    rewrite !invocations_app, Hinv2, app_nil_r. simpl. auto.
  - exists ([SelectAll "DESELECT"; UpdateEditMesh] ++ new1).
    simpl in *. rewrite Hcalls1.
    split; [simpl; rewrite <- !app_assoc; reflexivity |].
    split; [exact Hall | discriminate].
Qed.

(** C3: when no element of the configured kind is selected at capture
    time, [run] raises the empty-selection warning and leaves the host
    exactly as it was: no deselect-all, no per-element selection change,
    no operator invocation, nothing printed. *)
Theorem empty_selection_warns_without_mutation (s : State) (l : list BMElem) :
  kind_seq s = Some l ->
  Forall (fun p => select p = false) l ->
  run s = Raise (UserWarning ("No " ++ sel_type_ (self s) ++ " were selected"))
            {| self := set_selection [] (self s); host := host s |}
  /\ calls (host (res_state (run s))) = calls (host s)
  /\ edit_mesh (res_state (run s)) = edit_mesh s.
Proof.
  intros Hseq Hnone.
  destruct (kind_seq_Some s l Hseq) as (o & Ho & Hl).
  rewrite (run_empty_selection s o l Ho Hl (captured_none l Hnone)).
  repeat split.
Qed.

Lemma empty_selection_warns_without_mutation_witness :
  let s := Examples.ready "verts" Examples.identity true Examples.bare_verts in
  run s = Raise (UserWarning "No verts were selected")
            {| self := set_selection [] (self s); host := host s |}
  /\ calls (host (res_state (run s))) = calls (host s)
  /\ edit_mesh (res_state (run s)) = edit_mesh s.
Proof.
  apply (empty_selection_warns_without_mutation
           (Examples.ready "verts" Examples.identity true Examples.bare_verts)
           (verts Examples.bare_verts)).
  - reflexivity.
  - repeat constructor.
Defined.

Lemma quiet_not_raising (l : list HostCall) pd seen e :
  quiet l -> ~ In (CallAction pd seen (Some e)) l.
Proof.
  intros Hq Hin. unfold quiet in Hq. rewrite Forall_forall in Hq.
  apply list_elem_of_In in Hin. specialize (Hq _ Hin). discriminate.
Qed.

Lemma run_keeps_config (s : State) : config (res_state (run s)) = config s.
Proof.
  apply (keeps_run (fun a b => config b = config a)).
  - reflexivity.
  - intros s1 s2 s3 H12 H23. congruence.
  - reflexivity.
  - reflexivity.
Qed.

(** C4: if the configured operator raises an exception during an
    iteration of the apply loop, [run] ends with that exception; the
    raising invocation is the last host call of the run, so neither the
    deselect that ends the iteration, nor a further iteration, nor the
    restore phase takes place; and the edit mesh stays as the operator
    left it, with no rollback. *)
Theorem operator_exception_aborts_run (s : State) (new : list HostCall)
    (pd : gmap string PyVal) (seen : BMesh) (e : PyExn) :
  calls (host (res_state (run s))) = calls (host s) ++ new ->
  In (CallAction pd seen (Some e)) new ->
  exists pre,
    new = pre ++ [CallAction pd seen (Some e)] /\
    quiet pre /\
    res_exn (run s) = Some e /\
    fst (invoke (action_ (self s)) pd seen) = Some e /\
    edit_mesh (res_state (run s))
    = Some (snd (invoke (action_ (self s)) pd seen)).
Proof.
  intros Hcalls Hin.
  destruct (clean_run s) as (new' & Hcalls' & Hend).
  rewrite Hcalls in Hcalls'. apply app_inv_head in Hcalls'. subst new'.
  pose proof (run_keeps_config s) as Hcfg.
  destruct (run s) as [[] s' | e0 s']; simpl in *.
  - destruct (quiet_not_raising _ _ _ _ Hend Hin).
  - destruct Hend as [Hq | (pre & pd0 & seen0 & -> & Hq & Hraised & Hmesh)].
    + destruct (quiet_not_raising _ _ _ _ Hq Hin).
    + apply in_app_or in Hin as [Hin | [Heq | []]].
      * destruct (quiet_not_raising _ _ _ _ Hq Hin).
      * injection Heq as -> -> ->.
        assert (Ha : action_ (self s') = action_ (self s))
          by (unfold config in Hcfg; congruence).
        rewrite Ha in Hraised, Hmesh.
        exists pre. auto.
Qed.

Lemma operator_exception_aborts_run_witness :
  let s := Examples.ready "faces" Examples.fragile false Examples.quad_strip in
  let e := RuntimeError "Error: operator failed" in
  exists pre,
    fragile_run_calls = pre ++ [CallAction ∅ fragile_seen (Some e)] /\
    quiet pre /\
    res_exn (run s) = Some e /\
    fst (invoke (action_ (self s)) ∅ fragile_seen) = Some e /\
    edit_mesh (res_state (run s))
    = Some (snd (invoke (action_ (self s)) ∅ fragile_seen)).
Proof.
  apply (operator_exception_aborts_run
           (Examples.ready "faces" Examples.fragile false Examples.quad_strip)
           fragile_run_calls ∅ fragile_seen
           (RuntimeError "Error: operator failed")).
  - vm_compute. reflexivity.
  - unfold fragile_run_calls. simpl.
    repeat (first [left; reflexivity | right]).
Defined.

(** C9: the three configuration inputs (selection kind, operator
    reference, parameter mapping) are the same after [run] as before it,
    whether [run] returns or raises. *)
Theorem run_leaves_configuration_unchanged (s : State) :
  sel_type_ (self (res_state (run s))) = sel_type_ (self s) /\
  action_ (self (res_state (run s))) = action_ (self s) /\
  param_dict_ (self (res_state (run s))) = param_dict_ (self s).
Proof.
  pose proof (run_keeps_config s) as H. unfold config in H.
  injection H as H1 H2 H3. auto.
Qed.

(** C10: two executions of [run] that differ only in the verbose flag
    end the same way (both return, or both raise the same exception),
    leave the same active object (mode, edit mesh and every select
    flag), hold the same captured selection and have made the same
    sequence of host calls; only the console can differ. *)
Theorem verbose_flag_only_affects_console (me : Self) (h : Host) (b1 b2 : bool) :
  let r1 := run {| self := set_verbose b1 me; host := h |} in
  let r2 := run {| self := set_verbose b2 me; host := h |} in
  res_exn r1 = res_exn r2 /\
  active_object (host (res_state r1)) = active_object (host (res_state r2)) /\
  calls (host (res_state r1)) = calls (host (res_state r2)) /\
  selection_ (self (res_state r1)) = selection_ (self (res_state r2)).
Proof.
  intros r1 r2.
  assert (Hsim : sim {| self := set_verbose b1 me; host := h |}
                     {| self := set_verbose b2 me; host := h |}).
  { split; [reflexivity | split; reflexivity]. }
  pose proof (agree_run _ _ Hsim) as H. fold r1 r2 in H.
  destruct r1 as [a1 t1 | e1 t1], r2 as [a2 t2 | e2 t2]; try contradiction;
    destruct H as [Hres [Hself [Hobj Hcalls]]]; simpl;
    destruct (same_instance_fields _ _ Hself) as (Hsel & _);
    repeat split; congruence.
Qed.

(** ** Restoring a selection *)

(** With valid indices the captured indices are the positions of the
    selected elements. *)
Lemma captured_from (i : nat) (l : list BMElem) :
  (forall (j : nat) (p : BMElem), l !! j = Some p -> index p = Z.of_nat (i + j)) ->
  captured l = Z.of_nat <$> selected_from i l.
Proof.
  unfold captured. revert i.
  induction l as [| x rest IH]; intros i Hvalid; [reflexivity |].
  assert (Hrest : index <$> filter (fun p => select p = true) rest
                  = Z.of_nat <$> selected_from (S i) rest).
  { apply IH. intros j p Hj. rewrite (Hvalid (S j) p Hj). f_equal. lia. }
  cbn [selected_from]. destruct (select x) eqn:Hx.
  - rewrite filter_cons_True by exact Hx. rewrite !fmap_cons.
    rewrite Hrest, (Hvalid 0%nat x eq_refl). do 2 f_equal. lia.
  - rewrite filter_cons_False by (rewrite Hx; discriminate). exact Hrest.
Qed.

Lemma captured_positions (l : list BMElem) :
  indices_valid l -> captured l = Z.of_nat <$> selected_positions l.
Proof. intros H. apply captured_from. exact H. Qed.

Lemma elem_of_selected_from (i j : nat) (l : list BMElem) :
  j ∈ selected_from i l <->
  i <= j /\ exists p, l !! (j - i) = Some p /\ select p = true.
Proof.
  revert i. induction l as [| x rest IH]; intros i; simpl.
  - split; [intros H; inversion H | intros (_ & p & Hp & _); discriminate].
  - assert (Hrest : j ∈ selected_from (S i) rest <->
                    S i <= j /\ exists p, (x :: rest) !! (j - i) = Some p
                                          /\ select p = true).
    { rewrite IH. split; intros (Hle & p & Hp & Hs); (split; [exact Hle |]);
        exists p; (split; [| exact Hs]);
        replace (j - i) with (S (j - S i)) in * by lia; exact Hp. }
    destruct (select x) eqn:Hx.
    + rewrite elem_of_cons, Hrest. split.
      * intros [-> | (Hle & Hp)]; [| split; [lia | exact Hp]].
        split; [lia |]. exists x. rewrite Nat.sub_diag. auto.
      * intros (Hle & p & Hp & Hs).
        destruct (decide (j = i)) as [-> | Hne]; [left; reflexivity |].
        right. split; [lia |]. exists p. auto.
    + rewrite Hrest. split.
      * intros (Hle & Hp). split; [lia | exact Hp].
      * intros (Hle & p & Hp & Hs).
        destruct (decide (j = i)) as [-> | Hne]; [| split; [lia | eauto]].
        rewrite Nat.sub_diag in Hp. simpl in Hp. congruence.
Qed.

Lemma selected_positions_in_range (l : list BMElem) :
  Forall (fun p => p < length l) (selected_positions l).
Proof.
  rewrite Forall_forall. intros j Hj.
  apply elem_of_selected_from in Hj as (_ & p & Hp & _).
  rewrite Nat.sub_0_r in Hp. exact (lookup_lt_Some _ _ _ Hp).
Qed.

Lemma lookup_select_all_of (ps : list nat) (l : list BMElem) (j : nat) :
  select_all_of ps l !! j
  = if decide (j ∈ ps) then set_select true <$> l !! j else l !! j.
Proof.
  unfold select_all_of. revert l.
  induction ps as [| p rest IH]; intros l; simpl.
  - destruct (decide (j ∈ [])) as [H | _]; [inversion H | reflexivity].
  - rewrite IH, list_lookup_alter.
    destruct (decide (j ∈ rest)) as [Hin | Hnin];
      destruct (decide (p = j)) as [-> | Hne].
    + rewrite decide_True by (left). destruct (l !! j); reflexivity.
    + rewrite decide_True by (right; exact Hin). reflexivity.
    + rewrite decide_True by (left). reflexivity.
    + rewrite decide_False; [reflexivity |].
      intros H. apply elem_of_cons in H as [-> | H]; congruence.
Qed.

(** Re-selecting the originally selected positions of a deselected
    sequence gives the original sequence back. *)
Lemma restore_deselected (l : list BMElem) :
  select_all_of (selected_positions l) (deselect_seq l) = l.
Proof.
  apply list_eq. intros j.
  rewrite lookup_select_all_of. unfold deselect_seq.
  rewrite list_lookup_fmap.
  destruct (decide (j ∈ selected_positions l)) as [Hin | Hnin].
  - apply elem_of_selected_from in Hin as (_ & p & Hp & Hs).
    rewrite Nat.sub_0_r in Hp. rewrite Hp. simpl. f_equal.
    destruct p as [i b]. simpl in Hs. subst b. reflexivity.
  - destruct (l !! j) as [p |] eqn:Hp; [| reflexivity]. simpl. f_equal.
    destruct p as [i [|]]; [| reflexivity].
    exfalso. apply Hnin. apply elem_of_selected_from.
    split; [lia |]. exists {| index := i; select := true |}.
    rewrite Nat.sub_0_r. auto.
Qed.

Lemma with_data_same (o : Object) : with_data (data o) o = o.
Proof. destruct o. reflexivity. Qed.

(** The apply loop with an operator that changes nothing, started with
    everything deselected, ends with everything deselected. *)
Lemma apply_loop_identity (ps : list nat) :
  forall s o l,
    active_object (host s) = Some o ->
    getattr_bm (data o) (sel_type_ (self s)) = Some l ->
    deselect_mesh (data o) = data o ->
    callable (action_ (self s)) = true ->
    (forall pd bm, invoke (action_ (self s)) pd bm = (None, bm)) ->
    Forall (fun p => p < length l) ps ->
    exists out new,
      for_each (Z.of_nat <$> ps) __execute_action_on_selection_body s
      = Ok tt (moved s o (data o) out new).
Proof.
  induction ps as [| p rest IH]; intros s o l Ho Hl Hdes Hc Hid Hps.
  - exists [], []. rewrite (moved_nothing s o Ho). reflexivity.
  - rewrite fmap_cons. cbn [for_each].
    apply Forall_cons in Hps as [Hp Hrest].
    pose proof (body_moved s o l p (Z.of_nat p) Ho Hl
                  (py_index_nonneg _ _ Hp) Hc) as Hbody.
    simpl in Hbody. rewrite Hid in Hbody. simpl in Hbody.
    assert (Hl' : deselect_seq l = l).
    { pose proof (getattr_deselect (data o) (sel_type_ (self s))) as Hd.
      rewrite Hdes, Hl in Hd. simpl in Hd. congruence. }
    assert (Hback : deselect_mesh
                      (with_seq (data o) (sel_type_ (self s))
                                (alter (set_select true) p l)) = data o).
    { rewrite deselect_with_seq, deselect_seq_alter, Hdes, Hl'.
      apply with_seq_getattr. exact Hl. }
    rewrite Hback in Hbody. rewrite (bind_Ok _ _ _ _ _ Hbody).
    match type of Hbody with _ = Ok _ ?t => set (s1 := t) end.
    destruct (IH s1 (with_data (data o) o) l eq_refl Hl Hdes Hc Hid Hrest)
      as (out2 & new2 & Hloop).
    rewrite Hloop. unfold s1. rewrite moved_moved. simpl. eauto.
Qed.

(** The restore phase over positions that are all in range. *)
Lemma restore_loop_mesh (ps : list nat) :
  forall s o l,
    valid_kind (sel_type_ (self s)) ->
    active_object (host s) = Some o ->
    getattr_bm (data o) (sel_type_ (self s)) = Some l ->
    Forall (fun p => p < length l) ps ->
    for_each (Z.of_nat <$> ps) __select_single_instance s
    = Ok tt (moved s o
               (with_seq (data o) (sel_type_ (self s)) (select_all_of ps l))
               [] (restore_calls (sel_type_ (self s)) (Z.of_nat <$> ps))).
Proof.
  induction ps as [| p rest IH]; intros s o l Hk Ho Hl Hps.
  - unfold select_all_of. simpl. rewrite (with_seq_getattr _ _ _ Hl).
    rewrite (moved_nothing s o Ho). reflexivity.
  - rewrite fmap_cons. cbn [for_each].
    apply Forall_cons in Hps as [Hp Hrest].
    rewrite (bind_Ok _ _ _ _ _
               (select_single_instance_moved s o l p (Z.of_nat p) Ho Hl
                  (py_index_nonneg _ _ Hp))).
    set (l1 := alter (set_select true) p l).
    set (bm1 := with_seq (data o) (sel_type_ (self s)) l1).
    set (s1 := moved s o bm1 _ _).
    assert (Hrest1 : Forall (fun q => q < length l1) rest)
      by (unfold l1; rewrite length_alter; exact Hrest).
    rewrite (IH s1 (with_data bm1 o) l1 Hk eq_refl
               (getattr_with_seq _ _ _ Hk) Hrest1).
    unfold s1. rewrite moved_moved. simpl. unfold bm1.
    rewrite with_seq_with_seq. reflexivity.
Qed.

(** C1: for every valid non-empty selection of the configured kind, a
    run with an operator that changes nothing returns and leaves the
    elements of that kind selected exactly as they were; the run ends
    with the restore phase, which re-selects the captured indices in the
    order in which they were captured.  (The flags of the other two
    kinds are not part of the statement: the deselect-all calls clear
    them and the script never sets them.) *)
Theorem identity_run_restores_selection (s : State) (l : list BMElem) :
  kind_seq s = Some l ->
  indices_valid l ->
  captured l <> [] ->
  callable (action_ (self s)) = true ->
  (forall pd bm, invoke (action_ (self s)) pd bm = (None, bm)) ->
  exists s',
    run s = Ok tt s' /\
    kind_seq s' = Some l /\
    selection_ (self s') = captured l /\
    exists pre,
      calls (host s')
      = calls (host s) ++ pre ++ restore_calls (sel_type_ (self s)) (captured l).
Proof.
  intros Hseq Hvalid Hsome Hc Hid.
  destruct (kind_seq_Some s l Hseq) as (o & Ho & Hl).
  pose proof (getattr_Some_valid _ _ _ Hl) as Hk.
  rewrite (run_phases s o l Ho Hl Hsome).
  rewrite (captured_positions l Hvalid).
  set (ps := selected_positions l).
  set (s2 := loop_start s o l).
  assert (Hl2 : getattr_bm (deselect_mesh (data o)) (sel_type_ (self s))
                = Some (deselect_seq l))
    by (rewrite getattr_deselect, Hl; reflexivity).
  assert (Hps : Forall (fun p => p < length (deselect_seq l)) ps).
  { unfold deselect_seq. rewrite length_fmap.
    apply selected_positions_in_range. }
  destruct (apply_loop_identity ps s2 (with_data (deselect_mesh (data o)) o)
              (deselect_seq l) eq_refl Hl2 (deselect_mesh_idemp _) Hc Hid Hps)
    as (out & new & Hloop).
  rewrite (bind_Ok _ _ _ _ _ Hloop). simpl.
  set (s3 := moved s2 _ _ out new).
  rewrite (restore_loop_mesh ps s3 (with_data (deselect_mesh (data o)) o)
             (deselect_seq l) Hk (f_equal Some (eq_sym (with_data_same _)))
             Hl2 Hps).
  eexists. split; [reflexivity |].
  unfold ps. rewrite restore_deselected.
  repeat split.
  - unfold kind_seq, edit_mesh. simpl. apply getattr_with_seq. exact Hk.
  - simpl. apply captured_positions. exact Hvalid.
  - exists ([SelectAll "DESELECT"; UpdateEditMesh] ++ new). simpl.
    rewrite <- !app_assoc. reflexivity.
Qed.

Lemma identity_run_restores_selection_witness :
  let s := Examples.ready "faces" Examples.identity true Examples.quad_strip in
  let l := faces Examples.quad_strip in
  exists s',
    run s = Ok tt s' /\
    kind_seq s' = Some l /\
    selection_ (self s') = captured l /\
    exists pre,
      calls (host s')
      = calls (host s) ++ pre ++ restore_calls (sel_type_ (self s)) (captured l).
Proof.
  apply (identity_run_restores_selection
           (Examples.ready "faces" Examples.identity true Examples.quad_strip)
           (faces Examples.quad_strip)).
  - reflexivity.
  - intros [| [| [| [| i]]]] p H; simpl in H; inversion H; reflexivity.
  - vm_compute. discriminate.
  - reflexivity.
  - intros pd bm. reflexivity.
Defined.

(** C8 (amended): in every completed [run] the selection snapshot is
    captured at the start of the run (it is the list of indices of the
    elements selected then, and it is not empty), the apply loop and
    then the restore phase each select exactly its indices, in order,
    the operator is invoked once per index, and the instance still holds
    the snapshot in [selection_] when the run has returned. *)
Theorem completed_run_keeps_snapshot (s s' : State) :
  run s = Ok tt s' ->
  exists l new,
    kind_seq s = Some l /\
    captured l <> [] /\
    selection_ (self s') = captured l /\
    calls (host s') = calls (host s) ++ new /\
    select_calls new = captured l ++ captured l /\
    length (invocations new) = length (captured l).
Proof.
  intros Hrun. unfold kind_seq, edit_mesh.
  destruct (active_object (host s)) as [o |] eqn:Ho;
    [| rewrite (run_without_object s Ho) in Hrun; discriminate].
  simpl.
  destruct (getattr_bm (data o) (sel_type_ (self s))) as [l |] eqn:Hl;
    [| rewrite (run_without_attribute s o Ho Hl) in Hrun; discriminate].
  destruct (captured l) as [| i0 rest] eqn:Hcap;
    [rewrite (run_empty_selection s o l Ho Hl Hcap) in Hrun; discriminate |].
  assert (Hsome : captured l <> []) by congruence.
  rewrite (run_phases s o l Ho Hl Hsome) in Hrun.
  pose proof (getattr_Some_valid _ _ _ Hl) as Hk.
  rewrite Hcap in *.
  set (s2 := loop_start s o l) in *.
  destruct (apply_loop_spec (i0 :: rest) s2 Hk
              (cleared_after_deselect _ o _ _ _ Hk))
    as (new1 & Hcalls1 & _ & Hok).
  unfold bind in Hrun.
  destruct (for_each (i0 :: rest) __execute_action_on_selection_body s2)
    as [[] s3 | e s3]; [| discriminate].
  destruct Hok as (Hsel1 & Hlen & Hself & (o3 & l3 & Ho3 & _)).
  assert (Hk3 : valid_kind (sel_type_ (self s3))) by (rewrite Hself; exact Hk).
  destruct (restore_loop_spec (i0 :: rest) s3 o3 Hk3 Ho3)
    as (new2 & Hcalls2 & Hinv2 & Hok2).
  rewrite Hrun in Hcalls2, Hok2. simpl in Hcalls2.
  destruct Hok2 as [-> Hself'].
  exists l, ([SelectAll "DESELECT"; UpdateEditMesh] ++ new1
             ++ restore_calls (sel_type_ (self s3)) (i0 :: rest)).
  rewrite Hcap. repeat split.
  - discriminate.
  - rewrite Hself', Hself. unfold s2, loop_start. simpl. exact Hcap.
  - rewrite Hcalls2. simpl in Hcalls1. rewrite Hcalls1.
    simpl. rewrite <- !app_assoc. reflexivity.
  - rewrite !select_calls_app, select_calls_restore, Hsel1. reflexivity.
  - rewrite !invocations_app, Hinv2, app_nil_r. exact Hlen.
Qed.

Lemma completed_run_keeps_snapshot_witness :
  let s := Examples.ready "faces" Examples.identity false Examples.quad_strip in
  exists l new,
    kind_seq s = Some l /\
    captured l <> [] /\
    selection_ (self (res_state (run s))) = captured l /\
    calls (host (res_state (run s))) = calls (host s) ++ new /\
    select_calls new = captured l ++ captured l /\
    length (invocations new) = length (captured l).
Proof.
  apply (completed_run_keeps_snapshot
           (Examples.ready "faces" Examples.identity false Examples.quad_strip)).
  vm_compute. reflexivity.
Defined.

(** C8 as stated fails: the snapshot is not discarded.  After a
    completed run over three selected faces the instance does not hold
    the empty list of line 68 again, it still holds the three captured
    indices. *)
Lemma snapshot_not_discarded :
  ~ (forall s s', run s = Ok tt s' -> selection_ (self s') = []).
Proof.
  intros H.
  set (s0 := Examples.ready "faces" Examples.identity false Examples.quad_strip).
  assert (Hrun : run s0 = Ok tt (res_state (run s0)))
    by (vm_compute; reflexivity).
  assert (Hsel : selection_ (self (res_state (run s0))) = [0; 2; 3]%Z)
    by (vm_compute; reflexivity).
  specialize (H s0 (res_state (run s0)) Hrun).
  rewrite Hsel in H. discriminate H.
Qed.

(** ** Construction *)

Lemma split_on_head (c : ascii) (s : string) :
  hd EmptyString (split_on c s) = before_first c s.
Proof.
  induction s as [| a rest IH]; simpl; [reflexivity |].
  destruct (Ascii.eqb a c); [reflexivity |].
  destruct (split_on c rest) as [| w ws]; simpl in *; congruence.
Qed.

Lemma str_in_kinds_false (kind : string) :
  kind <> "verts"%string -> kind <> "edges"%string -> kind <> "faces"%string ->
  str_in kind ["verts"; "edges"; "faces"]%string = false.
Proof.
  intros Hv He Hf. unfold str_in. simpl.
  apply String.eqb_neq in Hv, He, Hf. rewrite Hv, He, Hf. reflexivity.
Qed.

Lemma init_in_edit_mode kind a pd vb s o :
  active_object (host s) = Some o ->
  mode o = "EDIT"%string ->
  __init__ kind a pd vb s
  = (__validate_selection_type ;; __validate_action ;; __read_selection)
      {| self := assigned kind a pd vb; host := host s |}.
Proof.
  intros Ho Hm. unfold __init__. rewrite Ho, Hm. reflexivity.
Qed.

Lemma init_outside_edit_mode kind a pd vb s o :
  active_object (host s) = Some o ->
  mode o <> "EDIT"%string ->
  __init__ kind a pd vb s
  = Raise (EnvironmentError "Your must be in edit mode to execute this script!") s.
Proof.
  intros Ho Hm. unfold __init__. rewrite Ho.
  apply String.eqb_neq in Hm. rewrite Hm. reflexivity.
Qed.

Lemma init_without_object kind a pd vb s :
  active_object (host s) = None ->
  __init__ kind a pd vb s
  = Raise (AttributeError "'NoneType' object has no attribute 'mode'") s.
Proof. intros Ho. unfold __init__. rewrite Ho. reflexivity. Qed.

Lemma validate_selection_type_rejects s :
  str_in (sel_type_ (self s)) ["verts"; "edges"; "faces"]%string = false ->
  __validate_selection_type s
  = Raise (NameError [sel_type_ (self s);
                      " is not valid. Use verts, edges or faces as SELECTION_TYPE"%string])
          s.
Proof.
  intros H. unfold __validate_selection_type, bind, get_self.
  rewrite H. reflexivity.
Qed.

Lemma validate_selection_type_accepts s :
  valid_kind (sel_type_ (self s)) -> __validate_selection_type s = Ok tt s.
Proof.
  intros H. unfold __validate_selection_type, bind, get_self.
  unfold valid_kind in H. rewrite H. reflexivity.
Qed.

(** C6: for every selection kind other than "verts", "edges" and
    "faces", [__validate_selection_type] raises the naming error and
    construction fails; it fails with the host exactly as it was, so
    before any mode switch, before the edit-mesh handle is acquired and
    before any element is looked at; and whenever the host is in edit
    mode the failure is that naming error. *)
Theorem invalid_selection_kind_rejected_before_mesh_read
    (kind : string) (a : Action) (pd : gmap string PyVal) (vb : bool) (s : State) :
  kind <> "verts"%string -> kind <> "edges"%string -> kind <> "faces"%string ->
  let r := __init__ kind a pd vb s in
  let err := NameError
               [kind; " is not valid. Use verts, edges or faces as SELECTION_TYPE"%string] in
  __validate_selection_type {| self := assigned kind a pd vb; host := host s |}
  = Raise err {| self := assigned kind a pd vb; host := host s |}
  /\ res_exn r <> None
  /\ host (res_state r) = host s
  /\ (forall o, active_object (host s) = Some o -> mode o = "EDIT"%string ->
        res_exn r = Some err /\ bm_ (self (res_state r)) = None).
Proof.
  intros Hv He Hf r err.
  pose proof (str_in_kinds_false kind Hv He Hf) as Hin.
  pose proof (validate_selection_type_rejects
                {| self := assigned kind a pd vb; host := host s |} Hin) as Hval.
  split; [exact Hval |].
  subst r. destruct (active_object (host s)) as [o |] eqn:Ho.
  - destruct (String.eqb_spec (mode o) "EDIT") as [Hm | Hm].
    + rewrite (init_in_edit_mode kind a pd vb s o Ho Hm).
      rewrite (bind_Raise _ _ _ _ _ Hval). simpl.
      split; [discriminate |]. split; [reflexivity |]. auto.
    + rewrite (init_outside_edit_mode kind a pd vb s o Ho Hm). simpl.
      split; [discriminate |]. split; [reflexivity |].
      intros o' Ho' Hm'. congruence.
  - rewrite (init_without_object kind a pd vb s Ho). simpl.
    split; [discriminate |]. split; [reflexivity |]. discriminate.
Qed.

Lemma invalid_selection_kind_rejected_before_mesh_read_witness :
  let s := {| self := Examples.fresh;
              host := Examples.host_in "EDIT" Examples.quad_strip |} in
  let r := __init__ "loops" Examples.identity ∅ true s in
  let err := NameError
               ["loops"%string;
                " is not valid. Use verts, edges or faces as SELECTION_TYPE"%string] in
  __validate_selection_type
    {| self := assigned "loops" Examples.identity ∅ true; host := host s |}
  = Raise err {| self := assigned "loops" Examples.identity ∅ true; host := host s |}
  /\ res_exn r <> None
  /\ host (res_state r) = host s
  /\ (forall o, active_object (host s) = Some o -> mode o = "EDIT"%string ->
        res_exn r = Some err /\ bm_ (self (res_state r)) = None).
Proof.
  apply (invalid_selection_kind_rejected_before_mesh_read
           "loops" Examples.identity ∅ true
           {| self := Examples.fresh;
              host := Examples.host_in "EDIT" Examples.quad_strip |});
    discriminate.
Defined.

(** X13: for every action that is not callable, or that has an
    identifier ([idname_py()]) whose first path segment, the part before
    the first dot, is other than "mesh", [__validate_action] raises a type
    error and construction fails; whenever the host is in edit mode and
    the selection kind is valid the failure is that type error. *)
Theorem unfit_action_rejected
    (kind : string) (a : Action) (pd : gmap string PyVal) (vb : bool) (s : State) :
  callable a = false \/
  (exists name, idname_py a = Some name /\
                before_first "." name <> "mesh"%string) ->
  let r := __init__ kind a pd vb s in
  exists msg,
    __validate_action {| self := assigned kind a pd vb; host := host s |}
    = Raise (TypeError msg) {| self := assigned kind a pd vb; host := host s |}
    /\ res_exn r <> None
    /\ host (res_state r) = host s
    /\ (forall o, active_object (host s) = Some o -> mode o = "EDIT"%string ->
          valid_kind kind -> res_exn r = Some (TypeError msg)).
Proof.
  intros Hbad r.
  set (s1 := {| self := assigned kind a pd vb; host := host s |}).
  assert (Hval : exists msg, __validate_action s1 = Raise (TypeError msg) s1).
  { unfold __validate_action, bind, get_self. simpl.
    destruct (callable a) eqn:Hc; simpl; [| eauto].
    destruct Hbad as [Hbad | (name & Hname & Hseg)]; [discriminate |].
    rewrite Hname, split_on_head.
    apply String.eqb_neq in Hseg. rewrite Hseg. simpl. eauto. }
  destruct Hval as [msg Hval]. exists msg.
  split; [exact Hval |].
  subst r. destruct (active_object (host s)) as [o |] eqn:Ho.
  - destruct (String.eqb_spec (mode o) "EDIT") as [Hm | Hm].
    + rewrite (init_in_edit_mode kind a pd vb s o Ho Hm). fold s1.
      destruct (str_in kind ["verts"; "edges"; "faces"]%string) eqn:Hk.
      * rewrite (bind_Ok _ _ _ _ _ (validate_selection_type_accepts s1 Hk)).
        rewrite (bind_Raise _ _ _ _ _ Hval). simpl.
        split; [discriminate |]. split; [reflexivity |]. auto.
      * rewrite (bind_Raise _ _ _ _ _ (validate_selection_type_rejects s1 Hk)).
        simpl. split; [discriminate |]. split; [reflexivity |].
        intros o' _ _ Hk'. unfold valid_kind in Hk'. congruence.
    + rewrite (init_outside_edit_mode kind a pd vb s o Ho Hm). simpl.
      split; [discriminate |]. split; [reflexivity |].
      intros o' Ho' Hm'. congruence.
  - rewrite (init_without_object kind a pd vb s Ho). simpl.
    split; [discriminate |]. split; [reflexivity |]. discriminate.
Qed.

Lemma unfit_action_rejected_witness :
  let s := {| self := Examples.fresh;
              host := Examples.host_in "EDIT" Examples.quad_strip |} in
  let r := __init__ "faces" Examples.object_operator ∅ true s in
  exists msg,
    __validate_action
      {| self := assigned "faces" Examples.object_operator ∅ true; host := host s |}
    = Raise (TypeError msg)
        {| self := assigned "faces" Examples.object_operator ∅ true; host := host s |}
    /\ res_exn r <> None
    /\ host (res_state r) = host s
    /\ (forall o, active_object (host s) = Some o -> mode o = "EDIT"%string ->
          valid_kind "faces" -> res_exn r = Some (TypeError msg)).
Proof.
  apply (unfit_action_rejected "faces" Examples.object_operator ∅ true
           {| self := Examples.fresh;
              host := Examples.host_in "EDIT" Examples.quad_strip |}).
  right. exists "object.mode_set"%string. split; [reflexivity | discriminate].
Defined.

(** C7, at the input where the code departs from it: a callable that is
    no host operator at all, such as a plain function, has no
    [idname_py]; line 85 then fails on the attribute lookup, and
    construction ends with an attribute error rather than the type error
    of line 86, the host being in edit mode and the kind valid.  Nothing
    else has happened: the host is as it was. *)
Theorem callable_without_identifier_raises_attribute_error :
  exists msg,
    __validate_action
      {| self := assigned "faces" Examples.plain_function ∅ true;
         host := Examples.host_in "EDIT" Examples.quad_strip |}
    = Raise (AttributeError msg)
        {| self := assigned "faces" Examples.plain_function ∅ true;
           host := Examples.host_in "EDIT" Examples.quad_strip |}
    /\ __init__ "faces" Examples.plain_function ∅ true
         {| self := Examples.fresh;
            host := Examples.host_in "EDIT" Examples.quad_strip |}
       = Raise (AttributeError msg)
           {| self := assigned "faces" Examples.plain_function ∅ true;
              host := Examples.host_in "EDIT" Examples.quad_strip |}.
Proof. eexists. split; reflexivity. Qed.

(** C5, at the input where the code departs from it: with no active
    object the host is not in edit mode, and construction fails before
    anything else happens, but with an attribute error rather than the
    environment error. *)
Theorem init_without_active_object_raises_attribute_error :
  __init__ "faces" Examples.identity ∅ true
    {| self := Examples.fresh; host := Examples.no_active_object |}
  = Raise (AttributeError "'NoneType' object has no attribute 'mode'")
      {| self := Examples.fresh; host := Examples.no_active_object |}.
Proof. reflexivity. Qed.

(** X1: when there is an active object and its mode is not "EDIT",
    construction raises the environment error with the instance and the
    host untouched, whatever the other arguments are: before any
    mutation and before any other validation. *)
Theorem init_outside_edit_mode_raises_environment_error
    (kind : string) (a : Action) (pd : gmap string PyVal) (vb : bool)
    (s : State) (o : Object) :
  active_object (host s) = Some o ->
  mode o <> "EDIT"%string ->
  __init__ kind a pd vb s
  = Raise (EnvironmentError "Your must be in edit mode to execute this script!") s.
Proof. apply init_outside_edit_mode. Qed.

Lemma init_outside_edit_mode_raises_environment_error_witness :
  let s := {| self := Examples.fresh;
              host := Examples.host_in "OBJECT" Examples.quad_strip |} in
  __init__ "loops" Examples.not_an_operator ∅ true s
  = Raise (EnvironmentError "Your must be in edit mode to execute this script!") s.
Proof.
  apply (init_outside_edit_mode_raises_environment_error
           "loops" Examples.not_an_operator ∅ true
           {| self := Examples.fresh;
              host := Examples.host_in "OBJECT" Examples.quad_strip |}
           (Examples.mesh_object "OBJECT" Examples.quad_strip)).
  - reflexivity.
  - discriminate.
Defined.

Lemma mode_set_moved s o (m : string) :
  active_object (host s) = Some o ->
  mode_set m s
  = Ok tt {| self := self s;
             host := {| active_object := Some (switched (host s) m o);
                        console := console (host s);
                        calls := calls (host s) ++ [ModeSet m];
                        mode_switch := mode_switch (host s) |} |}.
Proof.
  intros Ho. unfold mode_set, bind, the_object, modify_host.
  rewrite Ho. reflexivity.
Qed.

(** What [__read_selection] does: two mode switches, then the handle to
    the edit mesh if the object's data is a mesh, and a type error from
    [from_edit_mesh] otherwise, with only [obj_] assigned. *)
Lemma read_selection_outcome s o :
  active_object (host s) = Some o ->
  __read_selection s
  = if String.eqb (data_type o) "Mesh"
    then Ok tt {| self := set_handles (self s);
                  host := round_tripped (host s) o |}
    else Raise (TypeError ("expected 'Mesh' type found '" ++ data_type o
                                                          ++ "' instead"))
           {| self := set_obj (self s); host := round_tripped (host s) o |}.
Proof.
  intros Ho. unfold __read_selection.
  rewrite (bind_Ok _ _ _ _ _ (mode_set_moved s o "OBJECT" Ho)).
  erewrite (bind_Ok (mode_set "EDIT")); [| apply mode_set_moved; reflexivity].
  unfold bind, the_object, modify_host, modify_self, from_edit_mesh, log,
    round_tripped, reentered.
  cbn -[String.eqb String.append]. rewrite <- !app_assoc.
  destruct (String.eqb (data_type o) "Mesh"); reflexivity.
Qed.

(** X2: when the active object is a mesh object in edit mode, the
    selection kind is valid and the action is a callable mesh operator,
    construction returns: the instance holds the three inputs, an empty
    snapshot and the handles to the object and its edit mesh; the host
    has been asked for object mode, edit mode and the edit mesh, in that
    order, and nothing was printed.  The object is in edit mode again,
    with the mesh the host's two mode switches made of it. *)
Theorem init_succeeds_and_acquires_handle
    (kind : string) (a : Action) (pd : gmap string PyVal) (vb : bool)
    (s : State) (o : Object) (name : string) :
  active_object (host s) = Some o ->
  mode o = "EDIT"%string ->
  data_type o = "Mesh"%string ->
  valid_kind kind ->
  callable a = true ->
  idname_py a = Some name ->
  before_first "." name = "mesh"%string ->
  __init__ kind a pd vb s
  = Ok tt {| self := set_handles (assigned kind a pd vb);
             host := {| active_object :=
                          Some {| mode := "EDIT";
                                  data := mode_switch (host s) "EDIT"
                                            (mode_switch (host s) "OBJECT" (data o));
                                  data_type := "Mesh" |};
                        console := console (host s);
                        calls := calls (host s)
                                 ++ [ModeSet "OBJECT"; ModeSet "EDIT"; FromEditMesh];
                        mode_switch := mode_switch (host s) |} |}.
Proof.
  intros Ho Hm Ht Hk Hc Hname Hseg.
  rewrite (init_in_edit_mode kind a pd vb s o Ho Hm).
  set (s1 := {| self := assigned kind a pd vb; host := host s |}).
  rewrite (bind_Ok _ _ _ _ _ (validate_selection_type_accepts s1 Hk)).
  assert (Hval : __validate_action s1 = Ok tt s1).
  { unfold __validate_action, bind, get_self. simpl.
    rewrite Hc, Hname, split_on_head, Hseg. reflexivity. }
  rewrite (bind_Ok _ _ _ _ _ Hval).
  rewrite (read_selection_outcome s1 o Ho), Ht. simpl.
  unfold round_tripped, reentered, switched. simpl. rewrite Ht. reflexivity.
Qed.

Lemma init_succeeds_and_acquires_handle_witness :
  let s := {| self := Examples.fresh;
              host := Examples.reflushing_host Examples.quad_strip |} in
  __init__ "faces" Examples.identity ∅ true s
  = Ok tt {| self := set_handles (assigned "faces" Examples.identity ∅ true);
             host := {| active_object :=
                          Some {| mode := "EDIT";
                                  data := mode_switch (host s) "EDIT"
                                            (mode_switch (host s) "OBJECT"
                                               Examples.quad_strip);
                                  data_type := "Mesh" |};
                        console := console (host s);
                        calls := calls (host s)
                                 ++ [ModeSet "OBJECT"; ModeSet "EDIT"; FromEditMesh];
                        mode_switch := mode_switch (host s) |} |}.
Proof.
  apply (init_succeeds_and_acquires_handle "faces" Examples.identity ∅ true
           {| self := Examples.fresh;
              host := Examples.reflushing_host Examples.quad_strip |}
           (Examples.mesh_object "EDIT" Examples.quad_strip)
           "mesh.identity"%string); reflexivity.
Defined.

(** ** What a run prints *)

Lemma lines_when_quiet (me : Self) (idx : Z) :
  verbose_ me = false -> executing_line me idx ++ deselect_line me = [].
Proof. intros H. unfold executing_line, deselect_line. rewrite H. reflexivity. Qed.

Lemma executing_line_when_quiet (me : Self) (idx : Z) :
  verbose_ me = false -> executing_line me idx = [].
Proof. intros H. unfold executing_line. rewrite H. reflexivity. Qed.

Lemma flat_map_lines_verbose (me : Self) (sel : list Z) :
  verbose_ me = true ->
  flat_map (fun idx => executing_line me idx ++ deselect_line me) sel
  = flat_map (iteration_lines (sel_type_ me) (action_ me)) sel.
Proof.
  intros Hv. induction sel as [| idx rest IH]; simpl; [reflexivity |].
  rewrite IH. unfold executing_line, deselect_line. rewrite Hv. reflexivity.
Qed.

(** The console after the apply loop, however the loop ends. *)
Lemma apply_loop_console (sel : list Z) :
  forall s, valid_kind (sel_type_ (self s)) -> cleared s ->
  let r := for_each sel __execute_action_on_selection_body s in
  exists out,
    console (host (res_state r)) = console (host s) ++ out /\
    (verbose_ (self s) = false -> out = []) /\
    match r with
    | Ok _ _ =>
        out = flat_map (fun idx => executing_line (self s) idx
                                   ++ deselect_line (self s)) sel
    | Raise _ _ => True
    end.
Proof.
  induction sel as [| idx rest IH]; intros s Hk Hclr; simpl.
  - exists []. rewrite app_nil_r. auto.
  - destruct Hclr as (o & l & Ho & Hl & Hnone).
    destruct (py_index (length l) idx) as [p |] eqn:Hp.
    2: { rewrite (bind_Raise _ _ _ _ _ (body_out_of_range s o l idx Ho Hl Hp)).
         exists []. simpl. auto. }
    destruct (callable (action_ (self s))) eqn:Hc.
    2: { rewrite (bind_Raise _ _ _ _ _ (body_not_callable s o l p idx Ho Hl Hp Hc)).
         exists (executing_line (self s) idx). simpl.
         split; [reflexivity |]. split; [apply executing_line_when_quiet | exact I]. }
    pose proof (body_moved s o l p idx Ho Hl Hp Hc) as Hbody. simpl in Hbody.
    destruct (fst (invoke _ _ _)) as [e |].
    + rewrite (bind_Raise _ _ _ _ _ Hbody).
      exists (executing_line (self s) idx). simpl.
      split; [reflexivity |]. split; [apply executing_line_when_quiet | exact I].
    + rewrite (bind_Ok _ _ _ _ _ Hbody).
      match type of Hbody with _ = Ok _ ?t => set (s1 := t) in * end.
      destruct (IH s1 Hk (cleared_after_deselect s o _ _ _ Hk))
        as (out2 & Hcons & Hquiet & Hok).
      exists ((executing_line (self s) idx ++ deselect_line (self s)) ++ out2).
      split; [rewrite Hcons; simpl; rewrite <- !app_assoc; reflexivity |].
      split.
      * intros Hv. rewrite (lines_when_quiet _ idx Hv). apply Hquiet. exact Hv.
      * destruct (for_each rest _ s1); [| exact I]. rewrite Hok. reflexivity.
Qed.

(** The restore phase prints nothing, however it ends. *)
Lemma restore_loop_console (sel : list Z) :
  forall s o, valid_kind (sel_type_ (self s)) ->
  active_object (host s) = Some o ->
  console (host (res_state (for_each sel __select_single_instance s)))
  = console (host s).
Proof.
  induction sel as [| idx rest IH]; intros s o Hk Ho; simpl; [reflexivity |].
  destruct (getattr_valid (data o) _ Hk) as [l Hl].
  destruct (py_index (length l) idx) as [p |] eqn:Hp.
  - rewrite (bind_Ok _ _ _ _ _ (select_single_instance_moved s o l p idx Ho Hl Hp)).
    set (s1 := moved s o _ _ _).
    rewrite (IH s1 _ Hk eq_refl). simpl. apply app_nil_r.
  - rewrite (bind_Raise _ _ _ _ _
               (select_single_instance_out_of_range s o l idx Ho Hl Hp)).
    simpl. apply app_nil_r.
Qed.

(** The console after [run], however it ends. *)
Lemma run_console (s : State) :
  exists out,
    console (host (res_state (run s))) = console (host s) ++ out /\
    (verbose_ (self s) = false -> out = []) /\
    (res_exn (run s) = None ->
     exists l, kind_seq s = Some l /\
       out = selected_line (self s) (length (captured l))
             ++ deselect_line (self s)
             ++ flat_map (fun idx => executing_line (self s) idx
                                     ++ deselect_line (self s)) (captured l)).
Proof.
  unfold kind_seq, edit_mesh.
  destruct (active_object (host s)) as [o |] eqn:Ho; simpl.
  2: { rewrite (run_without_object s Ho). exists []. simpl.
       rewrite app_nil_r. split; [reflexivity |]. split; [auto | discriminate]. }
  destruct (getattr_bm (data o) (sel_type_ (self s))) as [l |] eqn:Hl.
  2: { rewrite (run_without_attribute s o Ho Hl). exists []. simpl.
       rewrite app_nil_r. split; [reflexivity |]. split; [auto | discriminate]. }
  destruct (decide (captured l = [])) as [Hcap | Hcap].
  { rewrite (run_empty_selection s o l Ho Hl Hcap). exists []. simpl.
    rewrite app_nil_r. split; [reflexivity |]. split; [auto | discriminate]. }
  rewrite (run_phases s o l Ho Hl Hcap).
  pose proof (getattr_Some_valid _ _ _ Hl) as Hk.
  set (s2 := loop_start s o l).
  assert (Hclr2 : cleared s2) by (apply cleared_after_deselect; exact Hk).
  destruct (apply_loop_console (captured l) s2 Hk Hclr2)
    as (out1 & Hcons1 & Hquiet1 & Hok1).
  destruct (apply_loop_spec (captured l) s2 Hk Hclr2) as (new1 & _ & _ & Hspec).
  change (self s2) with (set_selection (captured l) (self s)) in Hquiet1, Hok1.
  change (console (host s2))
    with (console (host s)
          ++ selected_line (self s) (length (captured l)) ++ deselect_line (self s))
    in Hcons1.
  exists ((selected_line (self s) (length (captured l)) ++ deselect_line (self s))
          ++ out1).
  unfold bind.
  destruct (for_each (captured l) __execute_action_on_selection_body s2)
    as [[] s3 | e s3].
  - destruct Hspec as (_ & _ & Hself & (o3 & l3 & Ho3 & _)).
    assert (Hk3 : valid_kind (sel_type_ (self s3))) by (rewrite Hself; exact Hk).
    rewrite (restore_loop_console (captured l) s3 o3 Hk3 Ho3).
    simpl in Hcons1. rewrite Hcons1.
    split; [rewrite <- !app_assoc; reflexivity |]. split.
    + intros Hv. rewrite (Hquiet1 Hv).
      unfold selected_line, deselect_line. rewrite Hv. reflexivity.
    + intros _. exists l. split; [reflexivity |].
      rewrite Hok1, <- app_assoc. reflexivity.
  - simpl in *. rewrite Hcons1.
    split; [rewrite <- !app_assoc; reflexivity |]. split; [| discriminate].
    intros Hv. rewrite (Hquiet1 Hv).
    unfold selected_line, deselect_line. rewrite Hv. reflexivity.
Qed.

(** X11: a run that is not verbose prints nothing, whether it returns or
    raises, and whatever the operator does. *)
Theorem quiet_run_prints_nothing (s : State) :
  verbose_ (self s) = false ->
  console (host (res_state (run s))) = console (host s).
Proof.
  intros Hv. destruct (run_console s) as (out & Hcons & Hquiet & _).
  rewrite Hcons, (Hquiet Hv). apply app_nil_r.
Qed.

Lemma quiet_run_prints_nothing_witness :
  let s := Examples.ready "faces" Examples.fragile false Examples.quad_strip in
  console (host (res_state (run s))) = console (host s).
Proof.
  apply (quiet_run_prints_nothing
           (Examples.ready "faces" Examples.fragile false Examples.quad_strip)).
  reflexivity.
Defined.

(** X10: a verbose run that completes has printed the capture line with the
    number of captured elements, one deselect line, and then for every
    captured index, in captured order, the line that announces the
    operator and one more deselect line; the deselect line names faces
    whatever the selection kind is. *)
Theorem verbose_run_transcript (s s' : State) :
  verbose_ (self s) = true ->
  run s = Ok tt s' ->
  exists l,
    kind_seq s = Some l /\
    console (host s')
    = console (host s)
      ++ verbose_transcript (sel_type_ (self s)) (action_ (self s)) (captured l).
Proof.
  intros Hv Hrun. destruct (run_console s) as (out & Hcons & _ & Hok).
  rewrite Hrun in Hcons, Hok. simpl in Hcons.
  destruct (Hok eq_refl) as (l & Hseq & ->).
  exists l. split; [exact Hseq |]. rewrite Hcons. f_equal.
  rewrite (flat_map_lines_verbose _ _ Hv).
  unfold verbose_transcript, selected_line, deselect_line. rewrite Hv.
  reflexivity.
Qed.

Lemma verbose_run_transcript_witness :
  let s := Examples.ready "verts" Examples.identity true Examples.quad_strip in
  exists l,
    kind_seq s = Some l /\
    console (host (res_state (run s)))
    = console (host s)
      ++ verbose_transcript (sel_type_ (self s)) (action_ (self s)) (captured l).
Proof.
  apply (verbose_run_transcript
           (Examples.ready "verts" Examples.identity true Examples.quad_strip)).
  - reflexivity.
  - vm_compute. reflexivity.
Defined.

(** ** A run does not read the previous snapshot *)

Lemma loop_start_forgets (s : State) (o : Object) (l : list BMElem) (old : list Z) :
  loop_start {| self := set_selection old (self s); host := host s |} o l
  = loop_start s o l.
Proof. reflexivity. Qed.

(** X12: what [selection_] held before a run plays no part in it: the outcome
    and the host after the run are the same whatever it was, and once
    the capture has taken place (there is an edit mesh and the
    configured kind names one of its sequences) the whole result is the
    same, new snapshot included. *)
Theorem run_ignores_previous_snapshot (s : State) (old : list Z) :
  let s0 := {| self := set_selection old (self s); host := host s |} in
  res_exn (run s0) = res_exn (run s) /\
  host (res_state (run s0)) = host (res_state (run s)) /\
  (forall l, kind_seq s = Some l -> run s0 = run s).
Proof.
  intros s0.
  destruct (active_object (host s)) as [o |] eqn:Ho.
  2: { rewrite (run_without_object s Ho), (run_without_object s0 Ho).
       repeat split. intros l Hl. unfold kind_seq, edit_mesh in Hl.
       rewrite Ho in Hl. discriminate. }
  destruct (getattr_bm (data o) (sel_type_ (self s))) as [l |] eqn:Hl.
  2: { rewrite (run_without_attribute s o Ho Hl),
               (run_without_attribute s0 o Ho Hl).
       repeat split. intros l Hl'. unfold kind_seq, edit_mesh in Hl'.
       rewrite Ho in Hl'. simpl in Hl'. congruence. }
  assert (Hsame : run s0 = run s).
  { destruct (decide (captured l = [])) as [Hcap | Hcap].
    - rewrite (run_empty_selection s o l Ho Hl Hcap),
              (run_empty_selection s0 o l Ho Hl Hcap). reflexivity.
    - rewrite (run_phases s o l Ho Hl Hcap), (run_phases s0 o l Ho Hl Hcap).
      unfold s0. rewrite loop_start_forgets. reflexivity. }
  rewrite Hsame. auto.
Qed.

(** ** Construction, whatever the arguments *)

Lemma validate_action_accepts s name :
  callable (action_ (self s)) = true ->
  idname_py (action_ (self s)) = Some name ->
  before_first "." name = "mesh"%string ->
  __validate_action s = Ok tt s.
Proof.
  intros Hc Hname Hseg. unfold __validate_action, bind, get_self.
  rewrite Hc, Hname, split_on_head, Hseg. reflexivity.
Qed.

Lemma validate_action_outcome s :
  match __validate_action s with
  | Ok _ s' =>
      s' = s /\ callable (action_ (self s)) = true /\
      exists name, idname_py (action_ (self s)) = Some name /\
                   before_first "." name = "mesh"%string
  | Raise _ s' => s' = s
  end.
Proof.
  unfold __validate_action, bind, get_self, raise, ret.
  destruct (callable (action_ (self s))); simpl; [| reflexivity].
  destruct (idname_py (action_ (self s))) as [name |]; [| reflexivity].
  rewrite split_on_head.
  destruct (String.eqb_spec (before_first "." name) "mesh"); simpl; eauto.
Qed.

(** Whether the checks of the constructor pass can be told from the
    arguments and the host. *)
Lemma passes_checks_dec kind a s :
  passes_checks kind a s \/ ~ passes_checks kind a s.
Proof.
  unfold passes_checks, valid_kind.
  destruct (active_object (host s)) as [o |].
  2: { right. intros ((o & Ho & _) & _). discriminate Ho. }
  destruct (String.eqb_spec (mode o) "EDIT") as [Hm | Hm].
  2: { right. intros ((o' & [= <-] & Hm') & _). contradiction. }
  destruct (str_in kind ["verts"; "edges"; "faces"]%string).
  2: { right. intros (_ & Hk & _). discriminate Hk. }
  destruct (callable a).
  2: { right. intros (_ & _ & Hc & _). discriminate Hc. }
  destruct (idname_py a) as [name |].
  2: { right. intros (_ & _ & _ & name & Hname & _). discriminate Hname. }
  destruct (String.eqb_spec (before_first "." name) "mesh") as [Hseg | Hseg].
  - left. eauto 10.
  - right. intros (_ & _ & _ & name' & [= <-] & Hseg'). contradiction.
Qed.

(** With the checks passed, what is left of the construction is the
    reading of the selection, on the instance as assigned. *)
Lemma init_checked kind a pd vb s o :
  passes_checks kind a s ->
  active_object (host s) = Some o ->
  __init__ kind a pd vb s
  = __read_selection {| self := assigned kind a pd vb; host := host s |}.
Proof.
  intros ((o' & Ho' & Hm) & Hk & Hc & name & Hname & Hseg) Ho.
  rewrite (init_in_edit_mode kind a pd vb s o' Ho' Hm).
  set (s1 := {| self := assigned kind a pd vb; host := host s |}).
  rewrite (bind_Ok _ _ _ _ _ (validate_selection_type_accepts s1 Hk)).
  rewrite (bind_Ok _ _ _ _ _ (validate_action_accepts s1 name Hc Hname Hseg)).
  reflexivity.
Qed.

(** With a check failed, construction raises before the host is asked for
    anything. *)
Lemma init_unchecked kind a pd vb s :
  ~ passes_checks kind a s ->
  exists e s', __init__ kind a pd vb s = Raise e s' /\ host s' = host s.
Proof.
  intros Hno.
  destruct (active_object (host s)) as [o |] eqn:Ho.
  2: { rewrite (init_without_object kind a pd vb s Ho). eauto. }
  destruct (String.eqb_spec (mode o) "EDIT") as [Hm | Hm].
  2: { rewrite (init_outside_edit_mode kind a pd vb s o Ho Hm). eauto. }
  rewrite (init_in_edit_mode kind a pd vb s o Ho Hm).
  set (s1 := {| self := assigned kind a pd vb; host := host s |}).
  destruct (str_in kind ["verts"; "edges"; "faces"]%string) eqn:Hk.
  2: { rewrite (bind_Raise _ _ _ _ _ (validate_selection_type_rejects s1 Hk)).
       eauto. }
  rewrite (bind_Ok _ _ _ _ _ (validate_selection_type_accepts s1 Hk)).
  pose proof (validate_action_outcome s1) as Hval.
  destruct (__validate_action s1) as [[] s2 | e s2] eqn:Hact.
  2: { subst s2. rewrite (bind_Raise _ _ _ _ _ Hact). eauto. }
  destruct Hval as (_ & Hc & Hname).
  exfalso. apply Hno. unfold passes_checks. eauto 10.
Qed.

(** X3: the three ways a construction can end.  When it returns, the
    host was in edit mode, the three inputs passed validation and the
    object's data is a mesh; the instance holds the inputs, an empty
    snapshot and the two handles, and the host has gone through object
    mode and back and handed out the edit mesh.  When it raises, either a
    check failed, and then the host is exactly as it was: no mode switch,
    no handle, no output; or every check passed and the object's data is
    not a mesh, and then the exception is the type error of
    [from_edit_mesh], raised after both mode switches, with the object
    handle assigned and the mesh handle not. *)
Theorem init_outcomes
    (kind : string) (a : Action) (pd : gmap string PyVal) (vb : bool) (s : State) :
  match __init__ kind a pd vb s with
  | Ok _ s' =>
      passes_checks kind a s /\
      self s' = set_handles (assigned kind a pd vb) /\
      exists o, active_object (host s) = Some o /\
                data_type o = "Mesh"%string /\
                host s' = round_tripped (host s) o
  | Raise e s' =>
      (~ passes_checks kind a s /\ host s' = host s) \/
      (passes_checks kind a s /\
       exists o msg, active_object (host s) = Some o /\
                     data_type o <> "Mesh"%string /\
                     e = TypeError msg /\
                     self s' = set_obj (assigned kind a pd vb) /\
                     host s' = round_tripped (host s) o)
  end.
Proof.
  destruct (passes_checks_dec kind a s) as [Hyes | Hno].
  - destruct Hyes as ((o & Ho & Hm) & Hrest).
    assert (Hyes : passes_checks kind a s) by (split; eauto).
    rewrite (init_checked kind a pd vb s o Hyes Ho).
    rewrite (read_selection_outcome
               {| self := assigned kind a pd vb; host := host s |} o Ho).
    destruct (String.eqb_spec (data_type o) "Mesh") as [Ht | Ht].
    + split; [exact Hyes |]. split; [reflexivity |]. eauto.
    + right. split; [exact Hyes |]. eauto 10.
  - destruct (init_unchecked kind a pd vb s Hno) as (e & s' & -> & Hhost).
    left. split; assumption.
Qed.

(** ** The selection a completed run leaves *)

Lemma length_select_all_of (ps : list nat) (l : list BMElem) :
  length (select_all_of ps l) = length l.
Proof.
  unfold select_all_of. revert l.
  induction ps as [| p rest IH]; intros l; simpl; [reflexivity |].
  rewrite IH. apply length_alter.
Qed.

Lemma named_positions_l len sel ps idx :
  named_positions len sel ps -> idx ∈ sel ->
  exists p, p ∈ ps /\ py_index len idx = Some p.
Proof.
  induction 1 as [| i p sel' ps' Hip _ IH]; intros Hin; [inversion Hin |].
  apply elem_of_cons in Hin as [-> | Hin].
  - exists p. split; [left | exact Hip].
  - destruct (IH Hin) as (q & Hq & Hiq). exists q. split; [right; exact Hq | exact Hiq].
Qed.

Lemma named_positions_r len sel ps p :
  named_positions len sel ps -> p ∈ ps ->
  exists idx, idx ∈ sel /\ py_index len idx = Some p.
Proof.
  induction 1 as [| i q sel' ps' Hiq _ IH]; intros Hin; [inversion Hin |].
  apply elem_of_cons in Hin as [-> | Hin].
  - exists i. split; [left | exact Hiq].
  - destruct (IH Hin) as (j & Hj & Hjp). exists j. split; [right; exact Hj | exact Hjp].
Qed.

(** A restore phase that returns has found every index in range and has
    selected the positions they name, one after the other. *)
Lemma restore_loop_result (sel : list Z) :
  forall s o l,
    valid_kind (sel_type_ (self s)) ->
    active_object (host s) = Some o ->
    getattr_bm (data o) (sel_type_ (self s)) = Some l ->
    match for_each sel __select_single_instance s with
    | Ok _ s' =>
        exists ps,
          named_positions (length l) sel ps /\
          s' = moved s o
                 (with_seq (data o) (sel_type_ (self s)) (select_all_of ps l))
                 [] (restore_calls (sel_type_ (self s)) sel)
    | Raise _ _ => True
    end.
Proof.
  induction sel as [| idx rest IH]; intros s o l Hk Ho Hl; simpl.
  - exists []. split; [constructor |].
    unfold select_all_of. simpl. rewrite (with_seq_getattr _ _ _ Hl).
    rewrite (moved_nothing s o Ho). reflexivity.
  - destruct (py_index (length l) idx) as [p |] eqn:Hp.
    2: { rewrite (bind_Raise _ _ _ _ _
                    (select_single_instance_out_of_range s o l idx Ho Hl Hp)).
         exact I. }
    rewrite (bind_Ok _ _ _ _ _
               (select_single_instance_moved s o l p idx Ho Hl Hp)).
    set (l1 := alter (set_select true) p l).
    set (bm1 := with_seq (data o) (sel_type_ (self s)) l1).
    set (s1 := moved s o bm1 _ _).
    pose proof (IH s1 (with_data bm1 o) l1 Hk eq_refl
                  (getattr_with_seq _ _ _ Hk)) as Hrest.
    destruct (for_each rest __select_single_instance s1) as [[] s' | e s'];
      [| exact I].
    destruct Hrest as (ps & Hps & ->).
    exists (p :: ps). split.
    + constructor; [exact Hp |].
      unfold l1 in Hps. rewrite length_alter in Hps. exact Hps.
    + unfold s1. rewrite moved_moved. simpl. unfold bm1.
      rewrite with_seq_with_seq. reflexivity.
Qed.

Lemma nothing_selected_lookup (l : list BMElem) (j : nat) (p : BMElem) :
  selected_positions l = [] -> l !! j = Some p -> select p = false.
Proof.
  intros Hnone Hj. destruct (select p) eqn:Hp; [| reflexivity].
  assert (Hin : j ∈ selected_positions l).
  { apply elem_of_selected_from. split; [lia |]. exists p.
    rewrite Nat.sub_0_r. auto. }
  rewrite Hnone in Hin. inversion Hin.
Qed.

(** X7: what every completed run leaves selected, whatever the operator did
    to the mesh: of the configured kind exactly the elements that the
    captured indices name in the final mesh, [seq[idx]] for each captured
    [idx], and no other.  After a change of topology these need not be
    the elements that were selected at the start. *)
Theorem completed_run_selects_named_elements (s s' : State) :
  run s = Ok tt s' ->
  exists l',
    kind_seq s' = Some l' /\
    forall j : nat,
      j ∈ selected_positions l' <->
      exists idx, idx ∈ selection_ (self s') /\
                  py_index (length l') idx = Some j.
Proof.
  intros Hrun.
  destruct (active_object (host s)) as [o |] eqn:Ho;
    [| rewrite (run_without_object s Ho) in Hrun; discriminate].
  destruct (getattr_bm (data o) (sel_type_ (self s))) as [l |] eqn:Hl;
    [| rewrite (run_without_attribute s o Ho Hl) in Hrun; discriminate].
  destruct (decide (captured l = [])) as [Hcap | Hcap];
    [rewrite (run_empty_selection s o l Ho Hl Hcap) in Hrun; discriminate |].
  rewrite (run_phases s o l Ho Hl Hcap) in Hrun.
  pose proof (getattr_Some_valid _ _ _ Hl) as Hk.
  set (s2 := loop_start s o l) in *.
  destruct (apply_loop_spec (captured l) s2 Hk
              (cleared_after_deselect _ o _ _ _ Hk))
    as (new1 & _ & _ & Hok).
  unfold bind in Hrun.
  destruct (for_each (captured l) __execute_action_on_selection_body s2)
    as [[] s3 | e s3]; [| discriminate].
  destruct Hok as (_ & _ & Hself & (o3 & l3 & Ho3 & Hl3 & Hnone)).
  assert (Hk3 : valid_kind (sel_type_ (self s3))) by (rewrite Hself; exact Hk).
  pose proof (restore_loop_result (captured l) s3 o3 l3 Hk3 Ho3 Hl3) as Hres.
  rewrite Hrun in Hres. destruct Hres as (ps & Hps & ->).
  exists (select_all_of ps l3). split.
  { unfold kind_seq, edit_mesh. simpl. apply getattr_with_seq. exact Hk3. }
  rewrite length_select_all_of. simpl. rewrite Hself. simpl.
  intros j. split.
  - intros Hj. apply elem_of_selected_from in Hj as (_ & p & Hp & Hsel).
    rewrite Nat.sub_0_r, lookup_select_all_of in Hp.
    destruct (decide (j ∈ ps)) as [Hin | Hnin].
    + exact (named_positions_r _ _ _ _ Hps Hin).
    + rewrite (nothing_selected_lookup l3 j p Hnone Hp) in Hsel. discriminate.
  - intros (idx & Hidx & Hj).
    destruct (named_positions_l _ _ _ _ Hps Hidx) as (q & Hq & Hq').
    assert (q = j) by congruence. subst q.
    destruct (lookup_lt_is_Some_2 l3 j (py_index_lt _ _ _ Hj)) as [p Hp].
    apply elem_of_selected_from. split; [lia |].
    exists (set_select true p). rewrite Nat.sub_0_r, lookup_select_all_of.
    rewrite decide_True by exact Hq. rewrite Hp. auto.
Qed.

Lemma completed_run_selects_named_elements_witness :
  let s := Examples.ready "faces" Examples.growing false Examples.quad_strip in
  exists l',
    kind_seq (res_state (run s)) = Some l' /\
    forall j : nat,
      j ∈ selected_positions l' <->
      exists idx, idx ∈ selection_ (self (res_state (run s))) /\
                  py_index (length l') idx = Some j.
Proof.
  apply (completed_run_selects_named_elements
           (Examples.ready "faces" Examples.growing false Examples.quad_strip)).
  vm_compute. reflexivity.
Defined.

(** ** The capture *)

Lemma selected_from_sorted (i : nat) (l : list BMElem) :
  StronglySorted Z.lt (Z.of_nat <$> selected_from i l).
Proof.
  revert i. induction l as [| x rest IH]; intros i; cbn [selected_from].
  - constructor.
  - destruct (select x); [| apply IH].
    rewrite fmap_cons. constructor; [apply IH |].
    rewrite Forall_fmap, Forall_forall. intros j Hj.
    apply elem_of_selected_from in Hj as (Hle & _). simpl. lia.
Qed.

Lemma selected_from_NoDup (i : nat) (l : list BMElem) :
  NoDup (selected_from i l).
Proof.
  revert i. induction l as [| x rest IH]; intros i; cbn [selected_from].
  - constructor.
  - destruct (select x); [| apply IH].
    constructor; [| apply IH].
    intros Hin. apply elem_of_selected_from in Hin as (Hle & _). lia.
Qed.

(** X6: on a sequence with valid indices the capture only reads: it makes no
    host call and leaves the active object as it is.  The snapshot it
    stores holds the index of every selected element and nothing else,
    each once, in ascending order. *)
Theorem capture_lists_selected_elements (s : State) (l : list BMElem) :
  kind_seq s = Some l ->
  indices_valid l ->
  captured l <> [] ->
  exists s',
    __store_selection s = Ok tt s' /\
    calls (host s') = calls (host s) /\
    active_object (host s') = active_object (host s) /\
    NoDup (selection_ (self s')) /\
    StronglySorted Z.lt (selection_ (self s')) /\
    forall idx : Z,
      idx ∈ selection_ (self s') <->
      exists (i : nat) (p : BMElem),
        idx = Z.of_nat i /\ l !! i = Some p /\ select p = true.
Proof.
  intros Hseq Hvalid Hsome.
  destruct (kind_seq_Some s l Hseq) as (o & Ho & Hl).
  pose proof (store_selection_moved s o l Ho Hl) as Hstore. simpl in Hstore.
  destruct (length (captured l) =? 0)%nat eqn:Hlen.
  { apply Nat.eqb_eq in Hlen. destruct (captured l); [congruence | discriminate]. }
  eexists. split; [exact Hstore |]. simpl.
  rewrite app_nil_r, Ho, with_data_same, (captured_positions l Hvalid).
  repeat split.
  - apply NoDup_fmap_2; [apply Nat2Z.inj' | apply selected_from_NoDup].
  - apply selected_from_sorted.
  - intros Hin. apply list_elem_of_fmap in Hin as (i & -> & Hi).
    apply elem_of_selected_from in Hi as (_ & p & Hp & Hsel).
    rewrite Nat.sub_0_r in Hp. eauto.
  - intros (i & p & -> & Hp & Hsel). apply list_elem_of_fmap_2.
    apply elem_of_selected_from. split; [lia |]. exists p.
    rewrite Nat.sub_0_r. auto.
Qed.

Lemma capture_lists_selected_elements_witness :
  let s := Examples.ready "faces" Examples.identity true Examples.quad_strip in
  let l := faces Examples.quad_strip in
  exists s',
    __store_selection s = Ok tt s' /\
    calls (host s') = calls (host s) /\
    active_object (host s') = active_object (host s) /\
    NoDup (selection_ (self s')) /\
    StronglySorted Z.lt (selection_ (self s')) /\
    forall idx : Z,
      idx ∈ selection_ (self s') <->
      exists (i : nat) (p : BMElem),
        idx = Z.of_nat i /\ l !! i = Some p /\ select p = true.
Proof.
  apply (capture_lists_selected_elements
           (Examples.ready "faces" Examples.identity true Examples.quad_strip)
           (faces Examples.quad_strip)).
  - reflexivity.
  - intros [| [| [| [| i]]]] p H; simpl in H; inversion H; reflexivity.
  - vm_compute. discriminate.
Defined.

(** ** An index beyond the end *)

Lemma py_index_beyond (len : nat) (idx : Z) :
  (Z.of_nat len <= idx)%Z -> py_index len idx = None.
Proof.
  intros H. unfold py_index.
  destruct (Z.ltb_spec idx 0); [lia |].
  destruct (Z.ltb_spec idx (Z.of_nat len)); [lia |].
  rewrite andb_false_r. reflexivity.
Qed.

(** X8: selecting an index at or beyond the end of the sequence, as a
    captured index can be once the operator has removed elements, raises
    an index error after the lookup table was refreshed: no select flag
    has changed and the mesh is not pushed to the host. *)
Theorem select_beyond_end_raises_index_error (s : State) (l : list BMElem) (idx : Z) :
  kind_seq s = Some l ->
  (Z.of_nat (length l) <= idx)%Z ->
  exists msg s',
    __select_single_instance idx s = Raise (IndexError msg) s' /\
    self s' = self s /\
    active_object (host s') = active_object (host s) /\
    console (host s') = console (host s) /\
    calls (host s') = calls (host s) ++ [EnsureLookupTable (sel_type_ (self s))].
Proof.
  intros Hseq Hidx.
  destruct (kind_seq_Some s l Hseq) as (o & Ho & Hl).
  eexists _, _. split.
  - apply (select_single_instance_out_of_range s o l idx Ho Hl).
    apply py_index_beyond. exact Hidx.
  - simpl. rewrite app_nil_r, with_data_same, Ho. auto.
Qed.

Lemma select_beyond_end_raises_index_error_witness :
  let s := Examples.ready "faces" Examples.identity true Examples.quad_strip in
  exists msg s',
    __select_single_instance 4 s = Raise (IndexError msg) s' /\
    self s' = self s /\
    active_object (host s') = active_object (host s) /\
    console (host s') = console (host s) /\
    calls (host s') = calls (host s) ++ [EnsureLookupTable (sel_type_ (self s))].
Proof.
  apply (select_beyond_end_raises_index_error
           (Examples.ready "faces" Examples.identity true Examples.quad_strip)
           (faces Examples.quad_strip) 4).
  - reflexivity.
  - simpl. lia.
Defined.

(** ** The script as a whole *)

(** The state a run with an operator that changes nothing ends in. *)
Lemma identity_run_final (s : State) (o : Object) (l : list BMElem) :
  active_object (host s) = Some o ->
  getattr_bm (data o) (sel_type_ (self s)) = Some l ->
  indices_valid l ->
  captured l <> [] ->
  callable (action_ (self s)) = true ->
  (forall pd bm, invoke (action_ (self s)) pd bm = (None, bm)) ->
  exists out new,
    run s
    = Ok tt (moved {| self := set_selection (captured l) (self s); host := host s |}
               o (with_seq (deselect_mesh (data o)) (sel_type_ (self s)) l)
               out (new ++ restore_calls (sel_type_ (self s)) (captured l))).
Proof.
  intros Ho Hl Hvalid Hsome Hc Hid.
  pose proof (getattr_Some_valid _ _ _ Hl) as Hk.
  rewrite (run_phases s o l Ho Hl Hsome).
  rewrite (captured_positions l Hvalid).
  set (ps := selected_positions l).
  assert (Hl2 : getattr_bm (deselect_mesh (data o)) (sel_type_ (self s))
                = Some (deselect_seq l))
    by (rewrite getattr_deselect, Hl; reflexivity).
  assert (Hps : Forall (fun p => p < length (deselect_seq l)) ps).
  { unfold deselect_seq. rewrite length_fmap.
    apply selected_positions_in_range. }
  destruct (apply_loop_identity ps (loop_start s o l)
              (with_data (deselect_mesh (data o)) o)
              (deselect_seq l) eq_refl Hl2 (deselect_mesh_idemp _) Hc Hid Hps)
    as (out & new & Hloop).
  rewrite (bind_Ok _ _ _ _ _ Hloop).
  set (s3 := moved (loop_start s o l) _ _ out new).
  rewrite (restore_loop_mesh ps s3 (with_data (deselect_mesh (data o)) o)
             (deselect_seq l) Hk (f_equal Some (eq_sym (with_data_same _)))
             Hl2 Hps).
  unfold ps. rewrite restore_deselected.
  unfold s3, loop_start. rewrite !moved_moved. simpl.
  rewrite <- (captured_positions l Hvalid).
  eexists _, ([SelectAll "DESELECT"; UpdateEditMesh] ++ new).
  rewrite <- !app_assoc. reflexivity.
Qed.

(** X5: the script, run on a mesh object in edit mode with a valid
    configuration and an operator that changes nothing, where the mesh as
    the host hands it out after the switch to object mode and back has
    valid indices and something selected, completes.  The elements of the
    configured kind are then selected exactly as the script found them,
    the host is in edit mode, the host calls start with the switch to
    object mode and back and end with the re-selection of the captured
    indices in captured order, and, the instance being created verbose,
    the console shows the full transcript of the run. *)
Theorem main_identity_round_trip
    (kind : string) (a : Action) (pd : gmap string PyVal)
    (s : State) (o : Object) (l : list BMElem) (name : string) :
  active_object (host s) = Some o ->
  mode o = "EDIT"%string ->
  data_type o = "Mesh"%string ->
  getattr_bm (data (reentered (host s) o)) kind = Some l ->
  indices_valid l ->
  captured l <> [] ->
  callable a = true ->
  idname_py a = Some name ->
  before_first "." name = "mesh"%string ->
  (forall pd' bm, invoke a pd' bm = (None, bm)) ->
  exists s',
    main kind a pd s = Ok tt s' /\
    kind_seq s' = Some l /\
    mode <$> active_object (host s') = Some "EDIT"%string /\
    selection_ (self s') = captured l /\
    console (host s') = console (host s) ++ verbose_transcript kind a (captured l) /\
    exists mid,
      calls (host s')
      = calls (host s) ++ [ModeSet "OBJECT"; ModeSet "EDIT"; FromEditMesh]
        ++ mid ++ restore_calls kind (captured l).
Proof.
  intros Ho Hm Ht Hl Hvalid Hsome Hc Hname Hseg Hid.
  pose proof (getattr_Some_valid _ _ _ Hl) as Hk.
  unfold main.
  assert (Hinit : __init__ kind a pd true s
                  = Ok tt {| self := set_handles (assigned kind a pd true);
                             host := round_tripped (host s) o |}).
  { rewrite (init_in_edit_mode kind a pd true s o Ho Hm).
    set (s1 := {| self := assigned kind a pd true; host := host s |}).
    rewrite (bind_Ok _ _ _ _ _ (validate_selection_type_accepts s1 Hk)).
    rewrite (bind_Ok _ _ _ _ _ (validate_action_accepts s1 name Hc Hname Hseg)).
    rewrite (read_selection_outcome s1 o Ho), Ht. reflexivity. }
  rewrite (bind_Ok _ _ _ _ _ Hinit).
  match type of Hinit with _ = Ok _ ?t => set (s1 := t) end.
  destruct (identity_run_final s1 (reentered (host s) o) l eq_refl Hl Hvalid
              Hsome Hc Hid)
    as (out & new & Hrun).
  destruct (run_console s1) as (out' & Hcons & _ & Hok).
  rewrite Hrun in Hcons, Hok. rewrite Hrun.
  destruct (Hok eq_refl) as (l' & Hseq' & Hout).
  assert (l' = l).
  { unfold kind_seq, edit_mesh in Hseq'. simpl in Hseq'.
    unfold reentered, switched in Hl. simpl in Hl. congruence. }
  subst l'.
  eexists. split; [reflexivity |].
  split; [unfold kind_seq, edit_mesh; simpl; apply getattr_with_seq; exact Hk |].
  split; [reflexivity |].
  split; [reflexivity |].
  split.
  - cbn [res_state] in Hcons.
    rewrite Hcons, Hout.
    rewrite (flat_map_lines_verbose (self s1) (captured l) eq_refl).
    reflexivity.
  - exists new. simpl. rewrite <- !app_assoc. reflexivity.
Qed.

Lemma main_identity_round_trip_witness :
  let s := {| self := Examples.fresh;
              host := Examples.reflushing_host Examples.quad_strip |} in
  let l := faces (data (reentered (host s)
                          (Examples.mesh_object "EDIT" Examples.quad_strip))) in
  exists s',
    main "faces" Examples.identity ∅ s = Ok tt s' /\
    kind_seq s' = Some l /\
    mode <$> active_object (host s') = Some "EDIT"%string /\
    selection_ (self s') = captured l /\
    console (host s')
    = console (host s) ++ verbose_transcript "faces" Examples.identity (captured l) /\
    exists mid,
      calls (host s')
      = calls (host s) ++ [ModeSet "OBJECT"; ModeSet "EDIT"; FromEditMesh]
        ++ mid ++ restore_calls "faces" (captured l).
Proof.
  apply (main_identity_round_trip "faces" Examples.identity ∅
           {| self := Examples.fresh;
              host := Examples.reflushing_host Examples.quad_strip |}
           (Examples.mesh_object "EDIT" Examples.quad_strip)
           (faces (data (reentered (Examples.reflushing_host Examples.quad_strip)
                           (Examples.mesh_object "EDIT" Examples.quad_strip))))
           "mesh.identity"%string).
  - reflexivity.
  - reflexivity.
  - reflexivity.
  - reflexivity.
  - intros [| [| [| [| i]]]] p H; simpl in H; inversion H; reflexivity.
  - vm_compute. discriminate.
  - reflexivity.
  - reflexivity.
  - reflexivity.
  - intros pd' bm. reflexivity.
Defined.

(** X4: when construction fails the script ends with the exception of the
    construction and [run] does not start.  Either a check failed, and
    the host is exactly as it was, with no host call made and nothing
    printed; or the checks passed and the host refused the edit mesh, and
    the host has only gone through object mode and back. *)
Theorem main_stops_at_failed_construction
    (kind : string) (a : Action) (pd : gmap string PyVal) (s : State) (e : PyExn) :
  res_exn (__init__ kind a pd true s) = Some e ->
  res_exn (main kind a pd s) = Some e /\
  ((~ passes_checks kind a s /\
    host (res_state (main kind a pd s)) = host s) \/
   (passes_checks kind a s /\
    exists o, active_object (host s) = Some o /\
              data_type o <> "Mesh"%string /\
              host (res_state (main kind a pd s)) = round_tripped (host s) o)).
Proof.
  intros Hinit. unfold main, bind.
  destruct (passes_checks_dec kind a s) as [Hyes | Hno].
  - destruct Hyes as ((o & Ho & Hm) & Hrest).
    assert (Hyes : passes_checks kind a s) by (split; eauto).
    rewrite (init_checked kind a pd true s o Hyes Ho) in Hinit |- *.
    rewrite (read_selection_outcome
               {| self := assigned kind a pd true; host := host s |} o Ho)
      in Hinit |- *.
    destruct (String.eqb_spec (data_type o) "Mesh") as [Ht | Ht];
      [discriminate Hinit |].
    split; [exact Hinit |]. right. split; [exact Hyes |]. eauto.
  - destruct (init_unchecked kind a pd true s Hno) as (e' & s' & Hi & Hhost).
    rewrite Hi in Hinit |- *.
    split; [exact Hinit |]. left. split; assumption.
Qed.

Lemma main_stops_at_failed_construction_witness :
  let s := {| self := Examples.fresh; host := Examples.curve_host "EDIT" |} in
  let e := TypeError "expected 'Mesh' type found 'Curve' instead" in
  res_exn (main "faces" Examples.identity ∅ s) = Some e /\
  ((~ passes_checks "faces" Examples.identity s /\
    host (res_state (main "faces" Examples.identity ∅ s)) = host s) \/
   (passes_checks "faces" Examples.identity s /\
    exists o, active_object (host s) = Some o /\
              data_type o <> "Mesh"%string /\
              host (res_state (main "faces" Examples.identity ∅ s))
              = round_tripped (host s) o)).
Proof.
  apply (main_stops_at_failed_construction "faces" Examples.identity ∅
           {| self := Examples.fresh; host := Examples.curve_host "EDIT" |}).
  reflexivity.
Defined.
